(** * PMC-thermodynamics: the porous media combustor solver

    A shallow embedding of [PMC.py] (classes [PMC] and [PMCNondim]),
    of the presets of [Properties.py] and of the call made by
    [driver_dim.py].

    Modelling conventions.
    - A Python float is an exact rational number ([Qc], canonical
      fractions): rounding, overflow, infinities and NaN are outside the
      model.  Division is Python's: a zero divisor raises
      [ZeroDivisionError].  Where a statement says how far a run gets on
      given inputs, it is made for inputs whose computed floats stay in
      range ([in_float_range]), on which exact arithmetic stands for the
      floats up to rounding.
    - An object is its attribute dictionary, a finite map from attribute
      names to numbers.
    - SymPy expressions are a small syntax tree ([expr]); [Symbol] and the
      arithmetic operators build it, [eval] gives its value.
    - [nsolve] is SymPy's and is not part of the repository; the module
      namespace carries it as a component, so every statement is about an
      arbitrary solver unless it says otherwise.
    - [print] is not modelled. *)

From Stdlib Require Import QArith Qcanon Qround.
From Stdlib Require Qcabs.
From stdpp Require Import gmap strings list fin_maps.

Local Open Scope Qc_scope.

(** ** Numbers *)

(** Decimal literals of the source, e.g. [8.7] is [dec 8.7]. *)
Definition dec (q : Q) : Qc := Q2Qc q.

(** The integer literals of [PMC.py] beyond 0, 1 and 2. *)
Notation "3" := (dec 3) : Qc_scope.
Notation "16" := (dec 16) : Qc_scope.
Notation "1000" := (dec 1000) : Qc_scope.
Notation "1500" := (dec 1500) : Qc_scope.

Definition Qc_abs (x : Qc) : Qc := Qcabs.Qcabs x.

(** ** Exceptions and outcomes *)

Inductive exn : Type :=
| ZeroDivisionError
| NameError (name : string)
| AttributeError (attr : string)
| IndexError
| NonFinite               (* not an exception: a NumPy division by zero,
                             whose infinite value the model cannot hold *)
| Raised (cls : string).  (* an exception of class [cls] from a library *)

Inductive result (A : Type) : Type :=
| Ok (a : A)
| Err (e : exn).
Arguments Ok {A} a.
Arguments Err {A} e.

#[global] Instance result_ret : MRet result := λ A a, Ok a.
#[global] Instance result_bind : MBind result := λ A B k m,
  match m with
  | Ok a => k a
  | Err e => Err e
  end.

Definition is_Ok {A} (r : result A) : Prop := ∃ a, r = Ok a.

(** Python's [a / b] on floats. *)
Definition pydiv (a b : Qc) : result Qc :=
  if decide (b = 0) then Err ZeroDivisionError else Ok (a / b).

(** NumPy's [a / b] when an operand is a NumPy scalar. *)
Definition npdiv (a b : Qc) : result Qc :=
  if decide (b = 0) then Err NonFinite else Ok (a / b).

(** [np.average] of a non-empty list. *)
Definition np_average (l : list Qc) : Qc :=
  foldr Qcplus 0 l / Qc_of_Z (Z.of_nat (length l)).

(** ** Objects *)

Definition getattr (o : gmap string Qc) (a : string) : result Qc :=
  match o !! a with
  | Some v => Ok v
  | None => Err (AttributeError a)
  end.

(** [self.a = src.a] for each name in turn, as the constructors do. *)
Fixpoint copy_attrs (names : list string) (src self : gmap string Qc)
  : result (gmap string Qc) :=
  match names with
  | [] => Ok self
  | a :: rest => v ← getattr src a; copy_attrs rest src (<[a := v]> self)
  end.

(** ** SymPy expressions *)

Inductive expr : Type :=
| Float (q : Qc)
| Symbol (name : string)
| Add (a b : expr)
| Sub (a b : expr)
| Mul (a b : expr)
| Div (a b : expr)
| Pow (a : expr) (n : nat).

Coercion Float : Qc >-> expr.

Declare Scope expr_scope.
Delimit Scope expr_scope with E.
Bind Scope expr_scope with expr.
Infix "+" := Add : expr_scope.
Infix "-" := Sub : expr_scope.
Infix "*" := Mul : expr_scope.
Infix "/" := Div : expr_scope.
Infix "^" := Pow : expr_scope.

(** The value of an expression under an assignment of its symbols.  Every
    divisor the source writes is the literal [2.]. *)
Fixpoint eval (ρ : string → Qc) (e : expr) : Qc :=
  match e with
  | Float q => q
  | Symbol s => ρ s
  | Add a b => eval ρ a + eval ρ b
  | Sub a b => eval ρ a - eval ρ b
  | Mul a b => eval ρ a * eval ρ b
  | Div a b => eval ρ a / eval ρ b
  | Pow a n => eval ρ a ^ n
  end.

(** The assignment that gives the [i]-th symbol the [i]-th value. *)
Fixpoint assign (syms : list string) (vals : list Qc) : string → Qc :=
  match syms, vals with
  | s :: syms', v :: vals' =>
      λ x, if decide (x = s) then v else assign syms' vals' x
  | _, _ => λ _, 0
  end.

(** ** The solver interface *)

(** [nsolve(f, symbols, x0, tol=...)]: the solution as a list, or an
    exception. *)
Abbreviation solver :=
  (list expr → list string → list Qc → Qc → result (list Qc)).

(** The module namespace of [PMC.py]: [nsolve] is imported, and [ct] is
    whatever the name [ct] is bound to, if anything. *)
Record ct_module : Type := { stefan_boltzmann : Qc }.

Record namespace : Type := {
  nsolve : solver;
  ct : option ct_module
}.

(** [PMC.py] as it is written: [import numpy as np] and
    [from sympy import Symbol, nsolve]; nothing binds [ct]. *)
Definition PMC_py (s : solver) : namespace := {| nsolve := s; ct := None |}.

Definition lookup_ct (g : namespace) : result ct_module :=
  match ct g with
  | Some m => Ok m
  | None => Err (NameError "ct")
  end.

(** [SOL[i]] on the solution matrix. *)
Definition index (SOL : list Qc) (i : nat) : result Qc :=
  match SOL !! i with
  | Some v => Ok v
  | None => Err IndexError
  end.

(** ** Properties.py *)

(** An instance of [InterfaceStabilized] after any field overrides (the
    driver sets [emissivity] before it builds the combustor). *)
Record DimensionalParameters : Type := {
  lambda_eff : Qc;   (* matrix thermal conductivity [W/m.K] *)
  L : Qc;            (* total burner length          [m] *)
  massFlux : Qc;     (* mass flux through burner     [kg/m**2.s] *)
  voidFrac : Qc;     (* average void fraction        [-] *)
  dp_upstr : Qc;     (* pore diameter, upstream      [m] *)
  dp_dwnstr : Qc;    (* pore diameter, downstream    [m] *)
  emissivity : Qc;   (* thermal emissivity           [-] *)
  DeltaT_PH : Qc;    (* temperature difference       [K] *)
  DeltaT_RC : Qc     (* temperature difference       [K] *)
}.

Definition InterfaceStabilized : DimensionalParameters := {|
  lambda_eff := dec 8.7;
  L := dec 3.0 * dec 0.0254;
  massFlux := dec 2.0;
  voidFrac := dec 0.805;
  dp_upstr := dec 0.492e-3;
  dp_dwnstr := dec 3.192e-3;
  emissivity := dec 0.9;
  DeltaT_PH := dec 20;
  DeltaT_RC := dec 20
|}.

Definition attrs (P : DimensionalParameters) : gmap string Qc :=
  <["DeltaT_RC" := DeltaT_RC P]> (<["DeltaT_PH" := DeltaT_PH P]> (
  <["emissivity" := emissivity P]> (<["dp_dwnstr" := dp_dwnstr P]> (
  <["dp_upstr" := dp_upstr P]> (<["voidFrac" := voidFrac P]> (
  <["massFlux" := massFlux P]> (<["L" := L P]> (
  <["lambda_eff" := lambda_eff P]> ∅)))))))).

(** An instance of [InterfaceStabilizedNondim] after any field overrides. *)
Record NonDimensionalParameters : Type := {
  nd_iota : Qc;
  nd_delta : Qc;
  nd_mu : Qc;
  nd_DeltaT_PH : Qc;
  nd_DeltaT_RC : Qc
}.

Definition InterfaceStabilizedNondim : NonDimensionalParameters := {|
  nd_iota := dec 0.05;
  nd_delta := dec 1.38;
  nd_mu := dec 0.0;
  nd_DeltaT_PH := dec 20.0;
  nd_DeltaT_RC := dec 20.0
|}.

Definition nd_attrs (N : NonDimensionalParameters) : gmap string Qc :=
  <["DeltaT_RC" := nd_DeltaT_RC N]> (<["DeltaT_PH" := nd_DeltaT_PH N]> (
  <["mu" := nd_mu N]> (<["delta" := nd_delta N]> (
  <["iota" := nd_iota N]> ∅)))).

(** ** PMC.py: constructors *)

Definition PMC_init (PMCData : gmap string Qc) : result (gmap string Qc) :=
  copy_attrs ["lambda_eff"; "voidFrac"; "massFlux"; "L"; "dp_upstr";
              "dp_dwnstr"; "emissivity"; "DeltaT_PH"; "DeltaT_RC"]
             PMCData ∅.

Definition PMCNondim_init (PMCData : gmap string Qc)
  : result (gmap string Qc) :=
  copy_attrs ["iota"; "delta"; "mu"; "DeltaT_PH"; "DeltaT_RC"] PMCData ∅.

(** ** PMC.py: the pieces the two [run] methods have in common *)

Definition th_3x : expr := Symbol "THETA_3x".
Definition th_3y : expr := Symbol "THETA_3y".
Definition th_3b : expr := Symbol "THETA_3b".
Definition th_S1 : expr := Symbol "THETA_S1".
Definition th_S2 : expr := Symbol "THETA_S2".

Definition unknowns : list string :=
  ["THETA_3x"; "THETA_3y"; "THETA_3b"; "THETA_S1"; "THETA_S2"].

(** Lines 45-48 and 91-94: the heating value after the lean/rich test. *)
Definition adjust_LHV (f f_st LHV : Qc) : result Qc :=
  if decide (f < f_st) then Ok LHV
  else r ← pydiv f f_st; pydiv LHV r.

(** Lines 56-62 and 106-112: the five residual expressions. *)
Definition equations (iota delta mu th_3a th_4 Delta1 Delta2 : Qc)
    (cp T0 f LHV : Qc) : result (list expr) :=
  let f1 := (iota * ((1 + delta * ((th_S1 + th_S2) / 2) ^ 3) * (th_S2 - th_S1)
                     - (delta * mu)%Qc * (th_S1 ^ 4 - (th_3a ^ 4)%Qc))
             - (th_3x - th_3a))%E in
  a ← pydiv f (f + 1);
  b ← pydiv LHV (cp * T0);
  let f2 := ((a * b)%Qc - (th_3y - th_3x))%E in
  let f3 := (iota * ((1 + delta * ((th_S1 + th_S2) / 2) ^ 3) * (th_S2 - th_S1)
                     + (delta * mu)%Qc * (th_S2 ^ 4 - (th_4 ^ 4)%Qc))
             - (th_3y - th_3b))%E in
  let f4 := (Delta1 - (th_S1 - th_3x))%E in
  let f5 := (Delta2 - (th_3b - th_S2))%E in
  Ok [f1; f2; f3; f4; f5].

(** Lines 64-67 and 114-117: the initial guess, in the order of
    [unknowns]. *)
Definition initial_guess (T3a : Qc) : result (list Qc) :=
  g ← pydiv (T3a + 1000) T3a;
  h ← pydiv (T3a + 1500) T3a;
  Ok [g; h; g; g; g].

Definition tolerance : Qc := dec 1e-6.

(** Lines 64-67 and 114-117: the call of [nsolve]; what it returns is the
    non-dimensional solution vector. *)
Definition call_nsolve (g : namespace) (eqs : list expr) (T3a : Qc)
  : result (list Qc) :=
  x0 ← initial_guess T3a;
  nsolve g eqs unknowns x0 tolerance.

(** Lines 68 and 119: [SOL *= T0]. *)
Definition rescale (SOL : list Qc) (T0 : Qc) : list Qc :=
  map (λ s, s * T0) SOL.

(** Lines 69-70 and 120-121: the two tuple assignments.  Each right-hand
    side is evaluated in full before its targets are assigned. *)
Definition store (SOL : list Qc) (self : gmap string Qc)
  : result () * gmap string Qc :=
  match (a ← index SOL 0; b ← index SOL 1; c ← index SOL 2; Ok (a, b, c)) with
  | Err e => (Err e, self)
  | Ok (a, b, c) =>
      let self := <["T3b" := c]> (<["T3y" := b]> (<["T3x" := a]> self)) in
      match (d ← index SOL 3; e ← index SOL 4; Ok (d, e)) with
      | Err e => (Err e, self)
      | Ok (d, e) => (Ok (), <["TS2" := e]> (<["TS1" := d]> self))
      end
  end.

(** A method body that computes [SOL] without touching [self] and then
    stores it. *)
Definition finish (r : result (list Qc)) (self : gmap string Qc)
  : result () * gmap string Qc :=
  match r with
  | Err e => (Err e, self)
  | Ok SOL => store SOL self
  end.

(** ** PMC.run *)

(** Lines 32-34: the two extinction coefficients and their average. *)
Definition extinction (self : gmap string Qc) : result (Qc * Qc * Qc) :=
  voidFrac ← getattr self "voidFrac";
  dp_upstr ← getattr self "dp_upstr";
  K_R_1 ← pydiv (3 * (1 - voidFrac)) (dp_upstr * 1000);
  voidFrac ← getattr self "voidFrac";
  dp_dwnstr ← getattr self "dp_dwnstr";
  K_R_2 ← pydiv (3 * (1 - voidFrac)) (dp_dwnstr * 1000);
  Ok (K_R_1, K_R_2, np_average [K_R_1; K_R_2]).

(** Line 36. *)
Definition PMC_iota (self : gmap string Qc) (cp : Qc) : result Qc :=
  lambda_eff ← getattr self "lambda_eff";
  massFlux ← getattr self "massFlux";
  L ← getattr self "L";
  pydiv lambda_eff (massFlux * cp * L).

(** Line 37.  The name [ct] is looked up first; [K_R] is a NumPy scalar,
    so the division is NumPy's. *)
Definition PMC_delta (g : namespace) (self : gmap string Qc) (K_R T0 : Qc)
  : result Qc :=
  m ← lookup_ct g;
  lambda_eff ← getattr self "lambda_eff";
  npdiv (16 * stefan_boltzmann m * T0 ^ 3) (3 * K_R * lambda_eff).

(** Line 38. *)
Definition PMC_mu (self : gmap string Qc) (K_R : Qc) : result Qc :=
  emissivity ← getattr self "emissivity";
  voidFrac ← getattr self "voidFrac";
  L ← getattr self "L";
  Ok ((3 * emissivity * K_R * (1 - voidFrac) * L) / 16).

(** Lines 32-38: the three groups. *)
Definition PMC_groups (g : namespace) (self : gmap string Qc) (cp T0 : Qc)
  : result (Qc * Qc * Qc) :=
  '(_, _, K_R) ← extinction self;
  iota ← PMC_iota self cp;
  delta ← PMC_delta g self K_R T0;
  mu ← PMC_mu self K_R;
  Ok (iota, delta, mu).

(** Lines 29-62: the residual expressions handed to the solver. *)
Definition PMC_equations (g : namespace) (self : gmap string Qc)
    (cp T0 T3a T4 f f_st LHV : Qc) : result (list expr) :=
  th_3a ← pydiv T3a T0;
  th_4 ← pydiv T4 T0;
  '(iota, delta, mu) ← PMC_groups g self cp T0;
  DeltaT_PH ← getattr self "DeltaT_PH";
  Delta1 ← pydiv DeltaT_PH T0;
  DeltaT_RC ← getattr self "DeltaT_RC";
  Delta2 ← pydiv DeltaT_RC T0;
  LHV ← adjust_LHV f f_st LHV;
  equations iota delta mu th_3a th_4 Delta1 Delta2 cp T0 f LHV.

(** Lines 29-67: the vector [nsolve] returns. *)
Definition PMC_theta (g : namespace) (self : gmap string Qc)
    (cp T0 T3a T4 f f_st LHV : Qc) : result (list Qc) :=
  eqs ← PMC_equations g self cp T0 T3a T4 f f_st LHV;
  call_nsolve g eqs T3a.

(** Lines 29-71. *)
Definition PMC_run (g : namespace) (self : gmap string Qc)
    (cp T0 T3a T4 f f_st LHV : Qc) : result () * gmap string Qc :=
  finish (SOL ← PMC_theta g self cp T0 T3a T4 f f_st LHV;
          Ok (rescale SOL T0)) self.

(** ** PMCNondim.run *)

(** Lines 85-112. *)
Definition PMCNondim_equations (self : gmap string Qc)
    (cp T0 T3a T4 f f_st LHV : Qc) : result (list expr) :=
  th_3a ← pydiv T3a T0;
  th_4 ← pydiv T4 T0;
  DeltaT_PH ← getattr self "DeltaT_PH";
  Delta1 ← pydiv DeltaT_PH T0;
  DeltaT_RC ← getattr self "DeltaT_RC";
  Delta2 ← pydiv DeltaT_RC T0;
  LHV ← adjust_LHV f f_st LHV;
  iota ← getattr self "iota";
  delta ← getattr self "delta";
  mu ← getattr self "mu";
  equations iota delta mu th_3a th_4 Delta1 Delta2 cp T0 f LHV.

(** Lines 85-117. *)
Definition PMCNondim_theta (g : namespace) (self : gmap string Qc)
    (cp T0 T3a T4 f f_st LHV : Qc) : result (list Qc) :=
  eqs ← PMCNondim_equations self cp T0 T3a T4 f f_st LHV;
  call_nsolve g eqs T3a.

(** Lines 85-122. *)
Definition PMCNondim_run (g : namespace) (self : gmap string Qc)
    (cp T0 T3a T4 f f_st LHV : Qc) : result () * gmap string Qc :=
  finish (SOL ← PMCNondim_theta g self cp T0 T3a T4 f f_st LHV;
          Ok (rescale SOL T0)) self.

(** ** driver_dim.py *)

(** Every divisor below is a non-zero constant. *)
Module driver.
Definition f_st : Qc := 1 / dec 17.16.
Definition LHV : Qc := dec 50.06e6.
Definition T2 : Qc := dec 300.
Definition T4 : Qc := dec 1400.
Definition cp : Qc := dec 1200.
Definition phi : Qc := dec 0.3.
Definition beta : Qc := dec 0.102.

(** [myProps.emissivity = 0] on a fresh [InterfaceStabilized()]. *)
Definition myProps : DimensionalParameters := {|
  lambda_eff := lambda_eff InterfaceStabilized;
  L := L InterfaceStabilized;
  massFlux := massFlux InterfaceStabilized;
  voidFrac := voidFrac InterfaceStabilized;
  dp_upstr := dp_upstr InterfaceStabilized;
  dp_dwnstr := dp_dwnstr InterfaceStabilized;
  emissivity := 0;
  DeltaT_PH := DeltaT_PH InterfaceStabilized;
  DeltaT_RC := DeltaT_RC InterfaceStabilized
|}.

Definition f : Qc := phi * f_st.
Definition T3a : Qc := T4 - (f / (f + 1)) * (LHV / cp).
Definition f_loc : Qc := f / (1 - beta).

(** [myPMC = PMC(myProps)] followed by
    [myPMC.run(cp,T2,T3a,T4,f_loc,f_st,LHV)]. *)
Definition main (g : namespace) : result () * gmap string Qc :=
  match PMC_init (attrs myProps) with
  | Err e => (Err e, ∅)
  | Ok myPMC => PMC_run g myPMC cp T2 T3a T4 f_loc f_st LHV
  end.
End driver.

(** ** The solver's contract and a reference solver *)

(** Every expression of [eqs] is within [tol] of zero at [sol]. *)
Definition residuals_within (eqs : list expr) (syms : list string)
    (sol : list Qc) (tol : Qc) : Prop :=
  Forall (λ e, Qc_abs (eval (assign syms sol) e) ≤ tol) eqs.

(** Modelled from the spec: [nsolve] belongs to SymPy and is not in the
    repository; section 4.3 gives its contract as returning a solution
    vector, one value per unknown, such that all residuals are within the
    tolerance, or failing. *)
Definition solver_contract (s : solver) : Prop :=
  ∀ eqs syms x0 tol sol,
    s eqs syms x0 tol = Ok sol →
    length sol = length syms ∧ residuals_within eqs syms sol tol.

(** A multivariate Newton iteration over the expression syntax, with the
    Jacobian obtained by symbolic differentiation and every iterate
    rounded to twelve decimals.  It stands in for [nsolve] wherever the
    model is run on concrete inputs. *)
Module Newton.

Fixpoint diff (x : string) (e : expr) : expr :=
  match e with
  | Float _ => Float 0
  | Symbol s => if decide (s = x) then Float 1 else Float 0
  | Add a b => diff x a + diff x b
  | Sub a b => diff x a - diff x b
  | Mul a b => diff x a * b + a * diff x b
  | Div a b => (diff x a * b - a * diff x b) / (b * b)
  | Pow a n =>
      match n with
      | O => Float 0
      | S m => Float (Qc_of_Z (Z.of_nat n)) * a ^ m * diff x a
      end
  end%E.

(** The first row whose leading entry is not zero, and the other rows. *)
Fixpoint pivot (rows : list (list Qc))
  : option (list Qc * list (list Qc)) :=
  match rows with
  | [] => None
  | r :: rs =>
      match r with
      | a :: _ =>
          if decide (a = 0)
          then '(p, rest) ← pivot rs; Some (p, r :: rest)
          else Some (r, rs)
      | [] => None
      end
  end.

(** [back [c2; ...; cn; b] [x2; ...; xn]] is [b - c2*x2 - ... - cn*xn]. *)
Fixpoint back (row xs : list Qc) : Qc :=
  match row, xs with
  | c :: row', x :: xs' => back row' xs' - c * x
  | [b], [] => b
  | _, _ => 0
  end.

(** Gaussian elimination on [n] augmented rows of [n + 1] entries. *)
Fixpoint gauss (n : nat) (rows : list (list Qc)) : option (list Qc) :=
  match n with
  | O => Some []
  | S n' =>
      '(p, rest) ← pivot rows;
      match p with
      | a :: ptail =>
          let p' := map (λ v, v / a) ptail in
          let rest' :=
            map (λ r, match r with
                      | b :: rt => zip_with (λ u v, u - b * v) rt p'
                      | [] => []
                      end) rest in
          xs ← gauss n' rest';
          Some (back p' xs :: xs)
      | [] => None
      end
  end.

Definition round12 (x : Qc) : Qc :=
  Qc_of_Z (Qfloor (x * dec 1e12)) / dec 1e12.

Definition step (eqs : list expr) (syms : list string) (x : list Qc)
  : option (list Qc) :=
  let ρ := assign syms x in
  let rows :=
    map (λ e, map (λ s, eval ρ (diff s e)) syms ++ [- eval ρ e]) eqs in
  dx ← gauss (length syms) rows;
  Some (zip_with (λ a d, round12 (a + d)) x dx).

Definition accept (eqs : list expr) (syms : list string) (x : list Qc)
    (tol : Qc) : bool :=
  bool_decide (length x = length syms) &&
  forallb (λ e, bool_decide (Qc_abs (eval (assign syms x) e) ≤ tol)) eqs.

Fixpoint iterate (maxsteps : nat) (eqs : list expr) (syms : list string)
    (x : list Qc) (tol : Qc) : result (list Qc) :=
  if accept eqs syms x tol then Ok x
  else
    match maxsteps with
    | O => Err (Raised "ValueError")
    | S k =>
        match step eqs syms x with
        | None => Err ZeroDivisionError
        | Some x' => iterate k eqs syms x' tol
        end
    end.

Definition solve : solver := iterate 20.

End Newton.

(** ** The specification's formulas *)

(** Section 4.2 of the specification, equation by equation, as functions
    of the five unknowns. *)
Section spec_residuals.
Variables (iota delta mu θ3a θ4 : Qc).
Variables (θ3x θ3y θ3b θS1 θS2 : Qc).

Definition spec_f1 : Qc :=
  iota * ((1 + delta * ((θS1 + θS2) / 2) ^ 3) * (θS2 - θS1)
          - delta * mu * (θS1 ^ 4 - θ3a ^ 4)) - (θ3x - θ3a).

Definition spec_f2 (f LHV_eff cp T0 : Qc) : Qc :=
  f / (f + 1) * (LHV_eff / (cp * T0)) - (θ3y - θ3x).

Definition spec_f3 : Qc :=
  iota * ((1 + delta * ((θS1 + θS2) / 2) ^ 3) * (θS2 - θS1)
          + delta * mu * (θS2 ^ 4 - θ4 ^ 4)) - (θ3y - θ3b).

Definition spec_f4 (ΔT_PH T0 : Qc) : Qc := ΔT_PH / T0 - (θS1 - θ3x).

Definition spec_f5 (ΔT_RC T0 : Qc) : Qc := ΔT_RC / T0 - (θ3b - θS2).
End spec_residuals.

(** The heating value of section 3: unmodified when lean, divided by
    [f/f_st] when rich. *)
Definition spec_LHV_eff (f f_st LHV : Qc) : Qc :=
  if decide (f < f_st) then LHV else LHV / (f / f_st).

(** What the five expressions of a list evaluate to, against section 4.2. *)
Definition builds_spec_system (eqs : list expr)
    (iota delta mu ΔT_PH ΔT_RC cp T0 T3a T4 f LHV_eff : Qc) : Prop :=
  ∃ f1 f2 f3 f4 f5,
    eqs = [f1; f2; f3; f4; f5] ∧
    ∀ ρ : string → Qc,
      let θ3x := ρ "THETA_3x" in
      let θ3y := ρ "THETA_3y" in
      let θ3b := ρ "THETA_3b" in
      let θS1 := ρ "THETA_S1" in
      let θS2 := ρ "THETA_S2" in
      eval ρ f1 = spec_f1 iota delta mu (T3a / T0) θ3x θS1 θS2 ∧
      eval ρ f2 = spec_f2 θ3x θ3y f LHV_eff cp T0 ∧
      eval ρ f3 = spec_f3 iota delta mu (T4 / T0) θ3y θ3b θS1 θS2 ∧
      eval ρ f4 = spec_f4 θ3x θS1 ΔT_PH T0 ∧
      eval ρ f5 = spec_f5 θ3b θS2 ΔT_RC T0.

(** ** Auxiliary definitions for the statements *)

(** The stored temperatures divided by [T0], in the order of [unknowns]. *)
Definition stored_theta (self : gmap string Qc) (T0 : Qc)
  : option (list Qc) :=
  T3x ← self !! "T3x"; T3y ← self !! "T3y"; T3b ← self !! "T3b";
  TS1 ← self !! "TS1"; TS2 ← self !! "TS2";
  Some [T3x / T0; T3y / T0; T3b / T0; TS1 / T0; TS2 / T0].

(** Reading a closed result back as fractions, for comparisons by
    computation. *)
Definition show (r : result (list Qc)) : option (list Q) :=
  match r with
  | Ok l => Some (map this l)
  | Err _ => None
  end.

(** The value of a result known to be [Ok]. *)
Definition from_Ok {A} (d : A) (r : result A) : A :=
  match r with
  | Ok a => a
  | Err _ => d
  end.

(** A parameter set on which the Jacobian of the system is singular. *)
Definition nd_singular : NonDimensionalParameters := {|
  nd_iota := - 1;
  nd_delta := 0;
  nd_mu := 0;
  nd_DeltaT_PH := dec 20;
  nd_DeltaT_RC := dec 20
|}.

Ltac qc_neq := let H := fresh in
  intros H; apply (f_equal this) in H; vm_compute in H; discriminate H.

(** Modelled from the spec: the Stefan-Boltzmann constant that
    [ct.stefan_boltzmann] is meant to denote; nothing in the repository
    defines it, and section 9 gives its value as 5.670374e-8. *)
Definition sigma_SB : Qc := dec 5.670374e-8.

(** A namespace in which [ct] is bound to a module with that constant. *)
Definition with_ct (s : solver) (σ : Qc) : namespace :=
  {| nsolve := s; ct := Some {| stefan_boltzmann := σ |} |}.

(** The non-dimensional parameter set that carries given groups and the
    offsets of [P]. *)
Definition reduced (P : DimensionalParameters) (iota delta mu : Qc)
  : NonDimensionalParameters := {|
  nd_iota := iota;
  nd_delta := delta;
  nd_mu := mu;
  nd_DeltaT_PH := DeltaT_PH P;
  nd_DeltaT_RC := DeltaT_RC P
|}.

(** The parameter set with both temperature offsets multiplied by [k]. *)
Definition nd_scaled (k : Qc) (N : NonDimensionalParameters)
  : NonDimensionalParameters := {|
  nd_iota := nd_iota N;
  nd_delta := nd_delta N;
  nd_mu := nd_mu N;
  nd_DeltaT_PH := k * nd_DeltaT_PH N;
  nd_DeltaT_RC := k * nd_DeltaT_RC N
|}.

(** An [InterfaceStabilized] whose upstream pore diameter is zero. *)
Definition zero_pore : DimensionalParameters := {|
  lambda_eff := lambda_eff InterfaceStabilized;
  L := L InterfaceStabilized;
  massFlux := massFlux InterfaceStabilized;
  voidFrac := voidFrac InterfaceStabilized;
  dp_upstr := 0;
  dp_dwnstr := dp_dwnstr InterfaceStabilized;
  emissivity := emissivity InterfaceStabilized;
  DeltaT_PH := DeltaT_PH InterfaceStabilized;
  DeltaT_RC := DeltaT_RC InterfaceStabilized
|}.

(** An [InterfaceStabilized] whose pore diameters, conductivity, mass flux
    and length are all negative. *)
Definition negative_matrix : DimensionalParameters := {|
  lambda_eff := - lambda_eff InterfaceStabilized;
  L := - L InterfaceStabilized;
  massFlux := - massFlux InterfaceStabilized;
  voidFrac := voidFrac InterfaceStabilized;
  dp_upstr := - dp_upstr InterfaceStabilized;
  dp_dwnstr := - dp_dwnstr InterfaceStabilized;
  emissivity := emissivity InterfaceStabilized;
  DeltaT_PH := DeltaT_PH InterfaceStabilized;
  DeltaT_RC := DeltaT_RC InterfaceStabilized
|}.

(** ** Objects and solvers for the further properties *)

(** The dimensional preset with one attribute more than [PMC] reads. *)
Definition preset_with_note : gmap string Qc :=
  <["note" := 1]> (attrs InterfaceStabilized).

(** A non-dimensional object that already carries a temperature. *)
Definition used_object : gmap string Qc :=
  <["T3x" := dec 1348]> (nd_attrs InterfaceStabilizedNondim).

(** The non-dimensional preset with the radiation group set to zero. *)
Definition nd_no_radiation : NonDimensionalParameters := {|
  nd_iota := dec 0.05;
  nd_delta := 0;
  nd_mu := 0;
  nd_DeltaT_PH := dec 20;
  nd_DeltaT_RC := dec 20
|}.

(** A solver that breaks the contract by returning four values. *)
Definition four_values : solver := λ _ _ _ _, Ok [1; 1; 1; 1].

(** The solution of the linear system left when [delta = 0]: the solid
    temperature downstream, the one upstream, then the three gas
    temperatures, listed in the order of [unknowns]. *)
Definition zero_radiation_solution (iota θ3a c Δ1 Δ2 : Qc) : list Qc :=
  let θS2 := θ3a + c - Δ2 in
  let θS1 := (θ3a + Δ1 + iota * θS2) / (1 + iota) in
  [θS1 - Δ1; θS1 - Δ1 + c; θ3a + c; θS1; θS2].

Ltac in_names :=
  repeat first [apply list_elem_of_here | apply list_elem_of_further].

Ltac sub_names H :=
  repeat (apply elem_of_cons in H as [->|H]; [in_names|]);
  by apply elem_of_nil in H.

Ltac not_in_names H :=
  repeat (apply elem_of_cons in H as [H|H]; [discriminate H|]);
  by apply elem_of_nil in H.

Ltac map_lookups :=
  rewrite ?lookup_insert; repeat case_decide; try congruence; try done.

(** ** The range of Python floats *)

(** A Python float is a binary64 number, and the model computes with its
    exact value.  The two agree up to rounding as long as every float the
    code computes is zero or lies inside the range of the normal binary64
    numbers (about 2.2e-308 to 1.8e308).  Outside it the code departs from
    exact arithmetic: a float power raises [OverflowError], the other
    operations give [inf], and a non-zero product or quotient can round
    to zero and then raise [ZeroDivisionError] as a divisor.  A statement
    that says how far a run gets on given inputs is therefore made for
    inputs whose computed floats stay between the two bounds below. *)
Definition float_tiny : Qc := dec 1e-300.
Definition float_huge : Qc := dec 1e300.

Definition in_float_range (x : Qc) : Prop :=
  x = 0 ∨ (float_tiny ≤ Qc_abs x ∧ Qc_abs x ≤ float_huge).

#[global] Instance in_float_range_dec (x : Qc) : Decision (in_float_range x).
Proof. unfold in_float_range. apply _. Defined.

(** The floats that lines 85-112 of [PMCNondim.run] read and compute:
    the seven arguments and the five attributes, then, in the order of
    evaluation, the four quotients by [T0], the rich branch's two
    quotients, and the float subterms of residuals 1, 2 and 3 (what
    remains of the residuals is SymPy arithmetic). *)
Definition PMCNondim_floats (N : NonDimensionalParameters)
    (cp T0 T3a T4 f f_st LHV : Qc) : list Qc :=
  let LHV_eff := if decide (f < f_st) then LHV else LHV / (f / f_st) in
  [cp; T0; T3a; T4; f; f_st; LHV;
   nd_iota N; nd_delta N; nd_mu N; nd_DeltaT_PH N; nd_DeltaT_RC N]
  ++ [T3a / T0; T4 / T0; nd_DeltaT_PH N / T0; nd_DeltaT_RC N / T0]
  ++ (if decide (f < f_st) then [] else [f / f_st; LHV / (f / f_st)])
  ++ [nd_delta N * nd_mu N; (T3a / T0) ^ 4;
      f + 1; f / (f + 1); cp * T0; LHV_eff / (cp * T0);
      f / (f + 1) * (LHV_eff / (cp * T0));
      (T4 / T0) ^ 4].

(** The floats of the initial guess, lines 115-117. *)
Definition guess_floats (T3a : Qc) : list Qc :=
  [T3a + 1000; (T3a + 1000) / T3a; T3a + 1500; (T3a + 1500) / T3a].

(** The floats that lines 32-38 of [PMC.run] read and compute where
    [ct.stefan_boltzmann] is [σ]: the two arguments, the constant and the
    seven attributes, then the values computed, in the order of
    evaluation. *)
Definition PMC_groups_floats (P : DimensionalParameters) (σ cp T0 : Qc)
  : list Qc :=
  let K_R_1 := 3 * (1 - voidFrac P) / (dp_upstr P * 1000) in
  let K_R_2 := 3 * (1 - voidFrac P) / (dp_dwnstr P * 1000) in
  let K_R := (K_R_1 + K_R_2) / 2 in
  [cp; T0; σ; voidFrac P; dp_upstr P; dp_dwnstr P; lambda_eff P;
   massFlux P; L P; emissivity P;
   1 - voidFrac P; 3 * (1 - voidFrac P); dp_upstr P * 1000; K_R_1;
   dp_dwnstr P * 1000; K_R_2; K_R_1 + K_R_2; K_R;
   massFlux P * cp; massFlux P * cp * L P;
   lambda_eff P / (massFlux P * cp * L P);
   16 * σ; T0 ^ 3; 16 * σ * T0 ^ 3; 3 * K_R; 3 * K_R * lambda_eff P;
   16 * σ * T0 ^ 3 / (3 * K_R * lambda_eff P);
   3 * emissivity P; 3 * emissivity P * K_R;
   3 * emissivity P * K_R * (1 - voidFrac P);
   3 * emissivity P * K_R * (1 - voidFrac P) * L P;
   3 * emissivity P * K_R * (1 - voidFrac P) * L P / 16].

(** An [InterfaceStabilized] whose upstream pore diameter alone is
    negative. *)
Definition negative_pore : DimensionalParameters := {|
  lambda_eff := lambda_eff InterfaceStabilized;
  L := L InterfaceStabilized;
  massFlux := massFlux InterfaceStabilized;
  voidFrac := voidFrac InterfaceStabilized;
  dp_upstr := - dp_upstr InterfaceStabilized;
  dp_dwnstr := dp_dwnstr InterfaceStabilized;
  emissivity := emissivity InterfaceStabilized;
  DeltaT_PH := DeltaT_PH InterfaceStabilized;
  DeltaT_RC := DeltaT_RC InterfaceStabilized
|}.

(** Section 4.2 at a vector of five values: each of the five formulas is
    within [tol] of zero. *)
Definition spec_residuals_within (iota delta mu ΔT_PH ΔT_RC : Qc)
    (cp T0 T3a T4 f LHV_eff : Qc) (θ : list Qc) (tol : Qc) : Prop :=
  ∃ θ3x θ3y θ3b θS1 θS2,
    θ = [θ3x; θ3y; θ3b; θS1; θS2] ∧
    Qc_abs (spec_f1 iota delta mu (T3a / T0) θ3x θS1 θS2) ≤ tol ∧
    Qc_abs (spec_f2 θ3x θ3y f LHV_eff cp T0) ≤ tol ∧
    Qc_abs (spec_f3 iota delta mu (T4 / T0) θ3y θ3b θS1 θS2) ≤ tol ∧
    Qc_abs (spec_f4 θ3x θS1 ΔT_PH T0) ≤ tol ∧
    Qc_abs (spec_f5 θ3b θS2 ΔT_RC T0) ≤ tol.

Ltac float_range :=
  match goal with
  | |- ?P => apply (bool_decide_eq_true_1 P); vm_compute; reflexivity
  end.

(** * Properties *)

(** ** Numbers *)

(** Two canonical fractions with the same numerator and denominator are
    equal: this is how closed computations are compared. *)
Lemma Qc_this_inj (x y : Qc) : this x = this y → x = y.
Proof. intros H. apply Qc_is_canon. rewrite H. reflexivity. Qed.

(** ** Division and attribute access *)

Lemma pydiv_Ok (a b : Qc) : b ≠ 0 → pydiv a b = Ok (a / b).
Proof. intros Hb. unfold pydiv. destruct (decide (b = 0)); congruence. Qed.

Lemma pydiv_zero (a : Qc) : pydiv a 0 = Err ZeroDivisionError.
Proof. unfold pydiv. destruct (decide (0 = 0)); congruence. Qed.

Lemma pydiv_inv (a b c : Qc) : pydiv a b = Ok c → b ≠ 0 ∧ c = a / b.
Proof.
  unfold pydiv. destruct (decide (b = 0)); [discriminate|].
  intros [= <-]. split; [assumption|reflexivity].
Qed.

Lemma npdiv_Ok (a b : Qc) : b ≠ 0 → npdiv a b = Ok (a / b).
Proof. intros Hb. unfold npdiv. destruct (decide (b = 0)); congruence. Qed.

Lemma mbind_Ok {A B} (a : A) (k : A → result B) : Ok a ≫= k = k a.
Proof. reflexivity. Qed.

Lemma bind_Ok_inv {A B} (m : result A) (k : A → result B) (b : B) :
  m ≫= k = Ok b → ∃ a, m = Ok a ∧ k a = Ok b.
Proof. destruct m as [a|e]; [eauto | discriminate]. Qed.

Lemma Qcmult_neq_0 (a b : Qc) : a ≠ 0 → b ≠ 0 → a * b ≠ 0.
Proof.
  intros Ha Hb Hab. destruct (Qcmult_integral _ _ Hab); contradiction.
Qed.

Lemma dec_1000_neq_0 : 1000 ≠ 0.
Proof. discriminate. Qed.

Lemma PMC_init_attrs (P : DimensionalParameters) :
  PMC_init (attrs P) = Ok (attrs P).
Proof. reflexivity. Qed.

Lemma PMCNondim_init_attrs (N : NonDimensionalParameters) :
  PMCNondim_init (nd_attrs N) = Ok (nd_attrs N).
Proof. reflexivity. Qed.

(** ** The reference solver meets the contract *)

Lemma accept_sound eqs syms x tol :
  Newton.accept eqs syms x tol = true →
  length x = length syms ∧ residuals_within eqs syms x tol.
Proof.
  unfold Newton.accept, residuals_within.
  intros [Hlen Hall]%andb_prop. split.
  - by apply bool_decide_eq_true in Hlen.
  - apply Forall_forall. intros e He.
    rewrite forallb_forall in Hall.
    apply list_elem_of_In in He.
    specialize (Hall e He).
    by apply bool_decide_eq_true_1 in Hall.
Qed.

Lemma iterate_sound n eqs syms x tol sol :
  Newton.iterate n eqs syms x tol = Ok sol →
  length sol = length syms ∧ residuals_within eqs syms sol tol.
Proof.
  revert x. induction n as [|n IH]; intros x; simpl.
  - destruct (Newton.accept eqs syms x tol) eqn:Hacc; [|discriminate].
    intros [= <-]. by apply accept_sound.
  - destruct (Newton.accept eqs syms x tol) eqn:Hacc.
    + intros [= <-]. by apply accept_sound.
    + destruct (Newton.step eqs syms x) as [x'|]; [apply IH | discriminate].
Qed.

Lemma Newton_solve_contract : solver_contract Newton.solve.
Proof. intros eqs syms x0 tol sol. apply iterate_sound. Qed.

(** ** The Equation Builder *)

Lemma adjust_LHV_Ok f f_st LHV :
  f < f_st ∨ (f_st ≠ 0 ∧ f ≠ 0) →
  adjust_LHV f f_st LHV = Ok (spec_LHV_eff f f_st LHV).
Proof.
  intros H. unfold adjust_LHV, spec_LHV_eff.
  destruct (decide (f < f_st)) as [Hlt|Hge]; [reflexivity|].
  destruct H as [H|[Hst Hf]]; [contradiction|].
  rewrite (pydiv_Ok f f_st Hst). simpl.
  apply pydiv_Ok. unfold Qcdiv.
  apply Qcmult_neq_0; [assumption|].
  intros Hinv. pose proof (Qcmult_inv_r f_st Hst) as H1.
  rewrite Hinv, Qcmult_0_r in H1. discriminate.
Qed.

Lemma adjust_LHV_inv f f_st LHV LHV' :
  adjust_LHV f f_st LHV = Ok LHV' → LHV' = spec_LHV_eff f f_st LHV.
Proof.
  unfold adjust_LHV, spec_LHV_eff.
  destruct (decide (f < f_st)); [congruence|].
  intros (r & [_ ->]%pydiv_inv & [_ ->]%pydiv_inv)%bind_Ok_inv.
  reflexivity.
Qed.

Lemma equations_inv iota delta mu th_3a th_4 Delta1 Delta2 cp T0 f LHV eqs :
  equations iota delta mu th_3a th_4 Delta1 Delta2 cp T0 f LHV = Ok eqs →
  ∃ f1 f2 f3 f4 f5,
    eqs = [f1; f2; f3; f4; f5] ∧
    ∀ ρ : string → Qc,
      eval ρ f1 = spec_f1 iota delta mu th_3a (ρ "THETA_3x")
                          (ρ "THETA_S1") (ρ "THETA_S2") ∧
      eval ρ f2 = spec_f2 (ρ "THETA_3x") (ρ "THETA_3y") f LHV cp T0 ∧
      eval ρ f3 = spec_f3 iota delta mu th_4 (ρ "THETA_3y") (ρ "THETA_3b")
                          (ρ "THETA_S1") (ρ "THETA_S2") ∧
      eval ρ f4 = Delta1 - (ρ "THETA_S1" - ρ "THETA_3x") ∧
      eval ρ f5 = Delta2 - (ρ "THETA_3b" - ρ "THETA_S2").
Proof.
  unfold equations.
  intros (a & [_ ->]%pydiv_inv & (b & [_ ->]%pydiv_inv & [= <-])%bind_Ok_inv)
    %bind_Ok_inv.
  do 5 eexists. split; [reflexivity|].
  intros ρ. repeat split.
Qed.

Lemma equations_Ok iota delta mu th_3a th_4 Delta1 Delta2 cp T0 f LHV :
  f + 1 ≠ 0 → cp * T0 ≠ 0 →
  is_Ok (equations iota delta mu th_3a th_4 Delta1 Delta2 cp T0 f LHV).
Proof.
  intros Hf Hc. unfold equations.
  rewrite (pydiv_Ok _ _ Hf). simpl. rewrite (pydiv_Ok _ _ Hc). simpl.
  eexists. reflexivity.
Qed.

Lemma equations_build iota delta mu ΔT_PH ΔT_RC cp T0 T3a T4 f LHV eqs :
  equations iota delta mu (T3a / T0) (T4 / T0) (ΔT_PH / T0) (ΔT_RC / T0)
            cp T0 f LHV = Ok eqs →
  builds_spec_system eqs iota delta mu ΔT_PH ΔT_RC cp T0 T3a T4 f LHV.
Proof.
  intros (f1 & f2 & f3 & f4 & f5 & -> & Hev)%equations_inv.
  exists f1, f2, f3, f4, f5. split; [reflexivity|].
  intros ρ. simpl. apply Hev.
Qed.

(** Whenever [PMCNondim.run] gets as far as its equations, the reference
    temperature is not zero and the equations are those of [equations] at
    the stored groups and the adjusted heating value. *)
Lemma PMCNondim_equations_inv self cp T0 T3a T4 f f_st LHV eqs :
  PMCNondim_equations self cp T0 T3a T4 f f_st LHV = Ok eqs →
  T0 ≠ 0 ∧
  ∃ iota delta mu ΔT_PH ΔT_RC,
    getattr self "iota" = Ok iota ∧ getattr self "delta" = Ok delta ∧
    getattr self "mu" = Ok mu ∧
    getattr self "DeltaT_PH" = Ok ΔT_PH ∧
    getattr self "DeltaT_RC" = Ok ΔT_RC ∧
    equations iota delta mu (T3a / T0) (T4 / T0) (ΔT_PH / T0) (ΔT_RC / T0)
              cp T0 f (spec_LHV_eff f f_st LHV) = Ok eqs.
Proof.
  unfold PMCNondim_equations.
  intros (th_3a & [HT0 ->]%pydiv_inv & H)%bind_Ok_inv.
  apply bind_Ok_inv in H as (th_4 & [_ ->]%pydiv_inv & H).
  apply bind_Ok_inv in H as (ΔT_PH & HPH & H).
  apply bind_Ok_inv in H as (Delta1 & [_ ->]%pydiv_inv & H).
  apply bind_Ok_inv in H as (ΔT_RC & HRC & H).
  apply bind_Ok_inv in H as (Delta2 & [_ ->]%pydiv_inv & H).
  apply bind_Ok_inv in H as (LHV' & ->%adjust_LHV_inv & H).
  apply bind_Ok_inv in H as (iota & Hiota & H).
  apply bind_Ok_inv in H as (delta & Hdelta & H).
  apply bind_Ok_inv in H as (mu & Hmu & H).
  split; [assumption|].
  exists iota, delta, mu, ΔT_PH, ΔT_RC. repeat split; assumption.
Qed.

(** The same for [PMC.run], whose groups come from lines 32-38. *)
Lemma PMC_equations_inv g self cp T0 T3a T4 f f_st LHV eqs :
  PMC_equations g self cp T0 T3a T4 f f_st LHV = Ok eqs →
  T0 ≠ 0 ∧
  ∃ iota delta mu ΔT_PH ΔT_RC,
    PMC_groups g self cp T0 = Ok (iota, delta, mu) ∧
    getattr self "DeltaT_PH" = Ok ΔT_PH ∧
    getattr self "DeltaT_RC" = Ok ΔT_RC ∧
    equations iota delta mu (T3a / T0) (T4 / T0) (ΔT_PH / T0) (ΔT_RC / T0)
              cp T0 f (spec_LHV_eff f f_st LHV) = Ok eqs.
Proof.
  unfold PMC_equations.
  intros (th_3a & [HT0 ->]%pydiv_inv & H)%bind_Ok_inv.
  apply bind_Ok_inv in H as (th_4 & [_ ->]%pydiv_inv & H).
  apply bind_Ok_inv in H as ([[iota delta] mu] & Hgr & H).
  apply bind_Ok_inv in H as (ΔT_PH & HPH & H).
  apply bind_Ok_inv in H as (Delta1 & [_ ->]%pydiv_inv & H).
  apply bind_Ok_inv in H as (ΔT_RC & HRC & H).
  apply bind_Ok_inv in H as (Delta2 & [_ ->]%pydiv_inv & H).
  apply bind_Ok_inv in H as (LHV' & ->%adjust_LHV_inv & H).
  split; [assumption|].
  exists iota, delta, mu, ΔT_PH, ΔT_RC. repeat split; assumption.
Qed.

(** [PMCNondim.run] on an [InterfaceStabilizedNondim] object reaches its
    equations exactly when no division fails. *)
Lemma PMCNondim_equations_Ok N cp T0 T3a T4 f f_st LHV :
  T0 ≠ 0 → cp ≠ 0 → f + 1 ≠ 0 → f < f_st ∨ (f_st ≠ 0 ∧ f ≠ 0) →
  PMCNondim_equations (nd_attrs N) cp T0 T3a T4 f f_st LHV =
  equations (nd_iota N) (nd_delta N) (nd_mu N) (T3a / T0) (T4 / T0)
            (nd_DeltaT_PH N / T0) (nd_DeltaT_RC N / T0) cp T0 f
            (spec_LHV_eff f f_st LHV)
  ∧ is_Ok (PMCNondim_equations (nd_attrs N) cp T0 T3a T4 f f_st LHV).
Proof.
  intros HT0 Hcp Hf Hbr.
  assert (PMCNondim_equations (nd_attrs N) cp T0 T3a T4 f f_st LHV =
          equations (nd_iota N) (nd_delta N) (nd_mu N) (T3a / T0) (T4 / T0)
            (nd_DeltaT_PH N / T0) (nd_DeltaT_RC N / T0) cp T0 f
            (spec_LHV_eff f f_st LHV)) as Heq.
  { unfold PMCNondim_equations.
    rewrite !(pydiv_Ok _ T0 HT0). simpl.
    change (getattr (nd_attrs N) "DeltaT_PH") with (Ok (nd_DeltaT_PH N)).
    change (getattr (nd_attrs N) "DeltaT_RC") with (Ok (nd_DeltaT_RC N)).
    simpl. rewrite !(pydiv_Ok _ T0 HT0). simpl.
    rewrite (adjust_LHV_Ok _ _ _ Hbr). reflexivity. }
  split; [exact Heq|]. rewrite Heq.
  apply equations_Ok; [assumption|]. by apply Qcmult_neq_0.
Qed.

(** On any other input the equations are not built: a division fails. *)
Lemma PMCNondim_equations_fails N cp T0 T3a T4 f f_st LHV :
  ¬ (T0 ≠ 0 ∧ cp ≠ 0 ∧ f + 1 ≠ 0 ∧ (f < f_st ∨ (f_st ≠ 0 ∧ f ≠ 0))) →
  PMCNondim_equations (nd_attrs N) cp T0 T3a T4 f f_st LHV =
  Err ZeroDivisionError.
Proof.
  intros Hn. unfold PMCNondim_equations.
  destruct (decide (T0 = 0)) as [->|HT0]; [by rewrite pydiv_zero|].
  rewrite !(pydiv_Ok _ T0 HT0), !mbind_Ok.
  change (getattr (nd_attrs N) "DeltaT_PH") with (Ok (nd_DeltaT_PH N)).
  change (getattr (nd_attrs N) "DeltaT_RC") with (Ok (nd_DeltaT_RC N)).
  change (getattr (nd_attrs N) "iota") with (Ok (nd_iota N)).
  change (getattr (nd_attrs N) "delta") with (Ok (nd_delta N)).
  change (getattr (nd_attrs N) "mu") with (Ok (nd_mu N)).
  repeat first [rewrite mbind_Ok | rewrite (pydiv_Ok _ T0 HT0)].
  unfold adjust_LHV.
  destruct (decide (f < f_st)) as [Hlt|Hge]; cbv beta iota.
  - rewrite !mbind_Ok. unfold equations.
    destruct (decide (f + 1 = 0)) as [->|Hf]; [by rewrite pydiv_zero|].
    rewrite (pydiv_Ok _ _ Hf), mbind_Ok.
    destruct (decide (cp = 0)) as [->|Hcp].
    + by rewrite Qcmult_0_l, pydiv_zero.
    + exfalso. apply Hn. tauto.
  - destruct (decide (f_st = 0)) as [->|Hst]; [by rewrite pydiv_zero|].
    rewrite (pydiv_Ok _ _ Hst), mbind_Ok.
    destruct (decide (f = 0)) as [->|Hf0].
    + unfold Qcdiv. by rewrite Qcmult_0_l, pydiv_zero.
    + rewrite pydiv_Ok, mbind_Ok.
      2: { unfold Qcdiv. apply Qcmult_neq_0; [assumption|].
           intros Hinv. pose proof (Qcmult_inv_r f_st Hst) as H1.
           rewrite Hinv, Qcmult_0_r in H1. discriminate H1. }
      unfold equations.
      destruct (decide (f + 1 = 0)) as [->|Hf]; [by rewrite pydiv_zero|].
      rewrite (pydiv_Ok _ _ Hf), mbind_Ok.
      destruct (decide (cp = 0)) as [->|Hcp].
      * by rewrite Qcmult_0_l, pydiv_zero.
      * exfalso. apply Hn. tauto.
Qed.

(** C6 (as amended). For every non-dimensional parameter set and all
    solve inputs with [T0], [cp] and [f+1] different from zero and, where
    the mixture is not lean, [f] and [f_st] different from zero, whose
    computed floats stay in range, [PMCNondim.run] assembles exactly the
    five residual expressions of section 4.2 in the unknowns THETA_3x,
    THETA_3y, THETA_3b, THETA_S1, THETA_S2, with [T3a/T0] and [T4/T0]
    inserted for the inlet and turbine temperatures and the offsets
    divided by [T0]; on every other input in range a division raises
    [ZeroDivisionError] and nothing is assembled. *)
Theorem C6_equation_builder N cp T0 T3a T4 f f_st LHV :
  Forall in_float_range (PMCNondim_floats N cp T0 T3a T4 f f_st LHV) →
  (T0 ≠ 0 → cp ≠ 0 → f + 1 ≠ 0 → f < f_st ∨ (f_st ≠ 0 ∧ f ≠ 0) →
   ∃ eqs,
     PMCNondim_equations (nd_attrs N) cp T0 T3a T4 f f_st LHV = Ok eqs ∧
     builds_spec_system eqs (nd_iota N) (nd_delta N) (nd_mu N)
       (nd_DeltaT_PH N) (nd_DeltaT_RC N) cp T0 T3a T4 f
       (spec_LHV_eff f f_st LHV)) ∧
  (¬ (T0 ≠ 0 ∧ cp ≠ 0 ∧ f + 1 ≠ 0 ∧ (f < f_st ∨ (f_st ≠ 0 ∧ f ≠ 0))) →
   PMCNondim_equations (nd_attrs N) cp T0 T3a T4 f f_st LHV =
   Err ZeroDivisionError).
Proof.
  intros _. split.
  - intros HT0 Hcp Hf Hbr.
    destruct (PMCNondim_equations_Ok N cp T0 T3a T4 f f_st LHV HT0 Hcp Hf Hbr)
      as [Heq [eqs Hok]].
    exists eqs. split; [assumption|].
    apply equations_build. congruence.
  - apply PMCNondim_equations_fails.
Qed.

(** C6 as stated fails when [cp] is zero, which the solve inputs of the
    specification (finite values, [T0 > 0], [f >= 0]) allow: line 108
    divides by [cp*T0 = 0], the run raises [ZeroDivisionError] and no
    residual is assembled. *)
Lemma C6_counterexample :
  PMCNondim_equations (nd_attrs InterfaceStabilizedNondim)
    0 driver.T2 driver.T3a driver.T4 driver.f_loc driver.f_st driver.LHV =
    Err ZeroDivisionError
  ∧ ¬ is_Ok (PMCNondim_equations (nd_attrs InterfaceStabilizedNondim)
       0 driver.T2 driver.T3a driver.T4 driver.f_loc driver.f_st driver.LHV).
Proof.
  assert (PMCNondim_equations (nd_attrs InterfaceStabilizedNondim)
    0 driver.T2 driver.T3a driver.T4 driver.f_loc driver.f_st driver.LHV =
    Err ZeroDivisionError) as H.
  { apply PMCNondim_equations_fails. intros (_ & Hcp & _). by apply Hcp. }
  split; [exact H|]. rewrite H. intros [eqs Heqs]. discriminate Heqs.
Qed.

(** ** The lean/rich branch *)

(** C5. Whenever a run gets as far as its equations, the heating value in
    residual 2 is [LHV] itself if [f < f_st] and [LHV/(f/f_st)] if
    [f >= f_st], and residual 2 is
    [f/(f+1) * (LHV_eff/(cp*T0)) - (THETA_3y - THETA_3x)]; this holds for
    both entry points.  And [PMCNondim.run] does get that far on either
    branch: with [T0], [cp] and [f+1] different from zero and the computed
    floats in range, a lean call keeps [LHV], a rich call with [f] and
    [f_st] different from zero obtains [LHV/(f/f_st)], and in both cases
    the equations are built with that value in residual 2. *)
Theorem C5_heating_value_branch g self N cp T0 T3a T4 f f_st LHV :
  (∀ eqs,
     PMCNondim_equations self cp T0 T3a T4 f f_st LHV = Ok eqs ∨
     PMC_equations g self cp T0 T3a T4 f f_st LHV = Ok eqs →
     ∃ LHV_eff f2,
       (f < f_st → LHV_eff = LHV) ∧
       (f_st ≤ f → LHV_eff = LHV / (f / f_st)) ∧
       eqs !! 1%nat = Some f2 ∧
       ∀ ρ : string → Qc,
         eval ρ f2 =
         f / (f + 1) * (LHV_eff / (cp * T0))
         - (ρ "THETA_3y" - ρ "THETA_3x")) ∧
  (T0 ≠ 0 → cp ≠ 0 → f + 1 ≠ 0 →
   Forall in_float_range (PMCNondim_floats N cp T0 T3a T4 f f_st LHV) →
   (f < f_st →
    adjust_LHV f f_st LHV = Ok LHV ∧
    ∃ eqs f2,
      PMCNondim_equations (nd_attrs N) cp T0 T3a T4 f f_st LHV = Ok eqs ∧
      eqs !! 1%nat = Some f2 ∧
      ∀ ρ : string → Qc,
        eval ρ f2 =
        f / (f + 1) * (LHV / (cp * T0)) - (ρ "THETA_3y" - ρ "THETA_3x")) ∧
   (f_st ≤ f → f_st ≠ 0 → f ≠ 0 →
    adjust_LHV f f_st LHV = Ok (LHV / (f / f_st)) ∧
    ∃ eqs f2,
      PMCNondim_equations (nd_attrs N) cp T0 T3a T4 f f_st LHV = Ok eqs ∧
      eqs !! 1%nat = Some f2 ∧
      ∀ ρ : string → Qc,
        eval ρ f2 =
        f / (f + 1) * (LHV / (f / f_st) / (cp * T0))
        - (ρ "THETA_3y" - ρ "THETA_3x"))).
Proof.
  assert (∀ eqs LHV',
            equations (nd_iota N) (nd_delta N) (nd_mu N) (T3a / T0) (T4 / T0)
              (nd_DeltaT_PH N / T0) (nd_DeltaT_RC N / T0) cp T0 f LHV'
            = Ok eqs →
            ∃ f2, eqs !! 1%nat = Some f2 ∧
                  ∀ ρ : string → Qc,
                    eval ρ f2 =
                    f / (f + 1) * (LHV' / (cp * T0))
                    - (ρ "THETA_3y" - ρ "THETA_3x")) as Hsecond.
  { intros eqs LHV' (f1 & f2 & f3 & f4 & f5 & -> & Hev)%equations_inv.
    exists f2. split; [reflexivity|]. intros ρ. apply (Hev ρ). }
  split.
  - intros eqs H.
    assert (∃ iota delta mu th_3a th_4 Delta1 Delta2,
              equations iota delta mu th_3a th_4 Delta1 Delta2 cp T0 f
                        (spec_LHV_eff f f_st LHV) = Ok eqs) as Heqs.
    { destruct H as [H|H].
      - apply PMCNondim_equations_inv in H
          as (_ & iota & delta & mu & PH & RC & _ & _ & _ & _ & _ & H).
        eauto 10.
      - apply PMC_equations_inv in H
          as (_ & iota & delta & mu & PH & RC & _ & _ & _ & H).
        eauto 10. }
    destruct Heqs
      as (iota & delta & mu & th_3a & th_4 & Delta1 & Delta2 & Heqs).
    apply equations_inv in Heqs as (f1 & f2 & f3 & f4 & f5 & -> & Hev).
    exists (spec_LHV_eff f f_st LHV), f2. unfold spec_LHV_eff.
    split; [|split; [|split]].
    + intros Hlt. destruct (decide (f < f_st)); [reflexivity|contradiction].
    + intros Hge. destruct (decide (f < f_st)) as [Hlt|]; [|reflexivity].
      exfalso. exact (Qcle_not_lt _ _ Hge Hlt).
    + reflexivity.
    + intros ρ. apply (Hev ρ).
  - intros HT0 Hcp Hf _. split.
    + intros Hlt.
      destruct (PMCNondim_equations_Ok N cp T0 T3a T4 f f_st LHV HT0 Hcp Hf
                  (or_introl Hlt)) as [Heq [eqs Hok]].
      assert (spec_LHV_eff f f_st LHV = LHV) as HL.
      { unfold spec_LHV_eff.
        destruct (decide (f < f_st)); [reflexivity|contradiction]. }
      split.
      * rewrite <- HL at 2. apply adjust_LHV_Ok. by left.
      * rewrite Heq, HL in Hok.
        destruct (Hsecond eqs LHV Hok) as (f2 & H2 & Hev).
        exists eqs, f2. split; [|by split].
        rewrite Heq, HL. exact Hok.
    + intros Hge Hst Hf0.
      destruct (PMCNondim_equations_Ok N cp T0 T3a T4 f f_st LHV HT0 Hcp Hf
                  (or_intror (conj Hst Hf0))) as [Heq [eqs Hok]].
      assert (spec_LHV_eff f f_st LHV = LHV / (f / f_st)) as HL.
      { unfold spec_LHV_eff.
        destruct (decide (f < f_st)) as [Hlt|]; [|reflexivity].
        exfalso. exact (Qcle_not_lt _ _ Hge Hlt). }
      split.
      * rewrite <- HL. apply adjust_LHV_Ok. by right.
      * rewrite Heq, HL in Hok.
        destruct (Hsecond eqs (LHV / (f / f_st)) Hok) as (f2 & H2 & Hev).
        exists eqs, f2. split; [|by split].
        rewrite Heq, HL. exact Hok.
Qed.

(** ** The call of the solver *)

(** C9. Whenever a run reaches the solver (its equations were built and
    [T3a] is not zero), the solver is called on those equations, on the
    unknowns in the order THETA_3x, THETA_3y, THETA_3b, THETA_S1,
    THETA_S2, from the guess [(T3a+1000)/T3a] for every unknown except
    THETA_3y, whose guess is [(T3a+1500)/T3a], and with tolerance 1e-6;
    what the solver returns is what the run goes on with. *)
Theorem C9_initial_guess g self cp T0 T3a T4 f f_st LHV eqs :
  T3a ≠ 0 →
  let x0 := [(T3a + 1000) / T3a; (T3a + 1500) / T3a; (T3a + 1000) / T3a;
             (T3a + 1000) / T3a; (T3a + 1000) / T3a] in
  let syms :=
    ["THETA_3x"; "THETA_3y"; "THETA_3b"; "THETA_S1"; "THETA_S2"] in
  (PMCNondim_equations self cp T0 T3a T4 f f_st LHV = Ok eqs →
   PMCNondim_theta g self cp T0 T3a T4 f f_st LHV =
   nsolve g eqs syms x0 (dec 1e-6)) ∧
  (PMC_equations g self cp T0 T3a T4 f f_st LHV = Ok eqs →
   PMC_theta g self cp T0 T3a T4 f f_st LHV =
   nsolve g eqs syms x0 (dec 1e-6)).
Proof.
  intros HT3a x0 syms.
  assert (call_nsolve g eqs T3a = nsolve g eqs syms x0 (dec 1e-6)) as Hcall.
  { unfold call_nsolve, initial_guess.
    rewrite !(pydiv_Ok _ _ HT3a). reflexivity. }
  split; intros Heqs.
  - unfold PMCNondim_theta. rewrite Heqs. exact Hcall.
  - unfold PMC_theta. rewrite Heqs. exact Hcall.
Qed.

(** When [T3a] is zero the guess cannot be formed and the solver is not
    called. *)
Lemma call_nsolve_T3a_zero g eqs :
  call_nsolve g eqs 0 = Err ZeroDivisionError.
Proof. unfold call_nsolve, initial_guess. by rewrite pydiv_zero. Qed.

(** ** Failure of the solve *)

Lemma finish_Err e self : finish (Err e) self = (Err e, self).
Proof. reflexivity. Qed.

(** C10. If the call of [nsolve] raises, the run raises the same
    exception and the object is exactly as it was: none of T3x, T3y, T3b,
    TS1, TS2 is assigned.  This holds for both entry points. *)
Theorem C10_failed_solve_leaves_object_unchanged
    g self cp T0 T3a T4 f f_st LHV eqs x0 e :
  initial_guess T3a = Ok x0 →
  nsolve g eqs unknowns x0 tolerance = Err e →
  (PMCNondim_equations self cp T0 T3a T4 f f_st LHV = Ok eqs →
   PMCNondim_run g self cp T0 T3a T4 f f_st LHV = (Err e, self)) ∧
  (PMC_equations g self cp T0 T3a T4 f f_st LHV = Ok eqs →
   PMC_run g self cp T0 T3a T4 f f_st LHV = (Err e, self)).
Proof.
  intros Hx0 Hsolve.
  assert (call_nsolve g eqs T3a = Err e) as Hcall.
  { unfold call_nsolve. rewrite Hx0. exact Hsolve. }
  split; intros Heqs.
  - unfold PMCNondim_run, PMCNondim_theta. rewrite Heqs. simpl.
    rewrite Hcall. reflexivity.
  - unfold PMC_run, PMC_theta. rewrite Heqs. simpl.
    rewrite Hcall. reflexivity.
Qed.

(** The two assignments are separate statements: a solution with fewer
    than five entries, which the contract excludes, would leave the first
    three temperatures assigned. *)
Lemma store_partial a b c d self :
  store [a; b; c; d] self =
  (Err IndexError,
   <["T3b" := c]> (<["T3y" := b]> (<["T3x" := a]> self))).
Proof. reflexivity. Qed.

(** Any failure before the assignments leaves the object unchanged. *)
Lemma PMCNondim_run_Err g self cp T0 T3a T4 f f_st LHV e :
  PMCNondim_theta g self cp T0 T3a T4 f f_st LHV = Err e →
  PMCNondim_run g self cp T0 T3a T4 f f_st LHV = (Err e, self).
Proof. intros H. unfold PMCNondim_run. rewrite H. reflexivity. Qed.

Lemma PMC_run_Err g self cp T0 T3a T4 f f_st LHV e :
  PMC_theta g self cp T0 T3a T4 f f_st LHV = Err e →
  PMC_run g self cp T0 T3a T4 f f_st LHV = (Err e, self).
Proof. intros H. unfold PMC_run. rewrite H. reflexivity. Qed.

(** ** Residuals at the stored temperatures *)

Lemma store_five a b c d e self :
  store [a; b; c; d; e] self =
  (Ok (), <["TS2" := e]> (<["TS1" := d]> (<["T3b" := c]> (
          <["T3y" := b]> (<["T3x" := a]> self))))).
Proof. reflexivity. Qed.

Lemma stored_theta_store a b c d e self self' r T0 :
  T0 ≠ 0 →
  store (rescale [a; b; c; d; e] T0) self = (r, self') →
  stored_theta self' T0 = Some [a; b; c; d; e].
Proof.
  intros HT0. simpl. rewrite store_five. intros [= _ <-].
  unfold stored_theta. simplify_map_eq. simpl.
  do 2 f_equal; [|f_equal; [|f_equal; [|f_equal; [|f_equal]]]];
    field; assumption.
Qed.

Lemma finish_Ok_inv r self self' :
  finish r self = (Ok (), self') → ∃ SOL, r = Ok SOL ∧ store SOL self = (Ok (), self').
Proof. destruct r as [SOL|e]; simpl; [eauto | discriminate]. Qed.

Lemma length_five {A} (l : list A) :
  length l = 5%nat → ∃ a b c d e, l = [a; b; c; d; e].
Proof.
  destruct l as [|a [|b [|c [|d [|e [|]]]]]]; try discriminate.
  intros _. by exists a, b, c, d, e.
Qed.

(** A vector returned under the contract on the five expressions of
    [equations], once rescaled and stored: the stored temperatures divided
    by [T0] make each formula of section 4.2 at most 1e-6 in absolute
    value. *)
Lemma contract_stored_residuals g iota delta mu ΔT_PH ΔT_RC
    cp T0 T3a T4 f LHV_eff eqs SOL self self' :
  solver_contract (nsolve g) → T0 ≠ 0 →
  equations iota delta mu (T3a / T0) (T4 / T0) (ΔT_PH / T0) (ΔT_RC / T0)
            cp T0 f LHV_eff = Ok eqs →
  call_nsolve g eqs T3a = Ok SOL →
  store (rescale SOL T0) self = (Ok (), self') →
  ∃ θ, stored_theta self' T0 = Some θ ∧
       spec_residuals_within iota delta mu ΔT_PH ΔT_RC cp T0 T3a T4 f
         LHV_eff θ (dec 1e-6).
Proof.
  intros Hc HT0 Heqs Hcall Hstore.
  unfold call_nsolve in Hcall.
  apply bind_Ok_inv in Hcall as (x0 & _ & Hsolve).
  apply Hc in Hsolve as [Hlen Hres].
  apply length_five in Hlen as (x & y & b & S1 & S2 & ->).
  apply equations_inv in Heqs as (f1 & f2 & f3 & f4 & f5 & -> & Hev).
  destruct (Hev (assign unknowns [x; y; b; S1; S2]))
    as (E1 & E2 & E3 & E4 & E5).
  unfold residuals_within in Hres.
  apply Forall_cons in Hres as [R1 Hres]. apply Forall_cons in Hres as [R2 Hres].
  apply Forall_cons in Hres as [R3 Hres]. apply Forall_cons in Hres as [R4 Hres].
  apply Forall_cons in Hres as [R5 _].
  rewrite E1 in R1. rewrite E2 in R2. rewrite E3 in R3.
  rewrite E4 in R4. rewrite E5 in R5.
  exists [x; y; b; S1; S2]. split; [by eapply stored_theta_store|].
  exists x, y, b, S1, S2. split; [reflexivity|].
  split; [exact R1|]. split; [exact R2|]. split; [exact R3|].
  split; [exact R4 | exact R5].
Qed.

(** C1. Under the contract of section 4.3 for [nsolve], every run that
    returns has stored five temperatures which, divided by [T0], make each
    of the five residual formulas of section 4.2 at most 1e-6 in absolute
    value, the formulas being taken at the groups and offsets of the
    object, at [T3a/T0] and [T4/T0] and at the heating value after the
    lean/rich adjustment; this holds for both entry points. *)
Theorem C1_residuals_at_stored_solution
    g self cp T0 T3a T4 f f_st LHV self' :
  solver_contract (nsolve g) →
  (PMCNondim_run g self cp T0 T3a T4 f f_st LHV = (Ok (), self') →
   ∃ iota delta mu ΔT_PH ΔT_RC θ,
     getattr self "iota" = Ok iota ∧ getattr self "delta" = Ok delta ∧
     getattr self "mu" = Ok mu ∧
     getattr self "DeltaT_PH" = Ok ΔT_PH ∧
     getattr self "DeltaT_RC" = Ok ΔT_RC ∧
     stored_theta self' T0 = Some θ ∧
     spec_residuals_within iota delta mu ΔT_PH ΔT_RC cp T0 T3a T4 f
       (spec_LHV_eff f f_st LHV) θ (dec 1e-6)) ∧
  (PMC_run g self cp T0 T3a T4 f f_st LHV = (Ok (), self') →
   ∃ iota delta mu ΔT_PH ΔT_RC θ,
     PMC_groups g self cp T0 = Ok (iota, delta, mu) ∧
     getattr self "DeltaT_PH" = Ok ΔT_PH ∧
     getattr self "DeltaT_RC" = Ok ΔT_RC ∧
     stored_theta self' T0 = Some θ ∧
     spec_residuals_within iota delta mu ΔT_PH ΔT_RC cp T0 T3a T4 f
       (spec_LHV_eff f f_st LHV) θ (dec 1e-6)).
Proof.
  intros Hc. split; intros Hrun.
  - unfold PMCNondim_run in Hrun.
    apply finish_Ok_inv in Hrun as (SOL' & Hsol & Hstore).
    apply bind_Ok_inv in Hsol as (SOL & Hth & [= <-]).
    unfold PMCNondim_theta in Hth.
    apply bind_Ok_inv in Hth as (eqs & Heqs & Hcall).
    apply PMCNondim_equations_inv in Heqs
      as (HT0 & iota & delta & mu & PH & RC & Hi & Hd & Hm & HPH & HRC & Heqs).
    destruct (contract_stored_residuals g iota delta mu PH RC cp T0 T3a T4 f
                (spec_LHV_eff f f_st LHV) eqs SOL self self'
                Hc HT0 Heqs Hcall Hstore) as (θ & Hθ & Hres).
    exists iota, delta, mu, PH, RC, θ.
    split; [exact Hi|]. split; [exact Hd|]. split; [exact Hm|].
    split; [exact HPH|]. split; [exact HRC|]. split; [exact Hθ | exact Hres].
  - unfold PMC_run in Hrun.
    apply finish_Ok_inv in Hrun as (SOL' & Hsol & Hstore).
    apply bind_Ok_inv in Hsol as (SOL & Hth & [= <-]).
    unfold PMC_theta in Hth.
    apply bind_Ok_inv in Hth as (eqs & Heqs & Hcall).
    apply PMC_equations_inv in Heqs
      as (HT0 & iota & delta & mu & PH & RC & Hgr & HPH & HRC & Heqs).
    destruct (contract_stored_residuals g iota delta mu PH RC cp T0 T3a T4 f
                (spec_LHV_eff f f_st LHV) eqs SOL self self'
                Hc HT0 Heqs Hcall Hstore) as (θ & Hθ & Hres).
    exists iota, delta, mu, PH, RC, θ.
    split; [exact Hgr|]. split; [exact HPH|]. split; [exact HRC|].
    split; [exact Hθ | exact Hres].
Qed.

(** ** The Group Reducer (lines 32-38 of [PMC.run]) *)

Lemma np_average_two (a b : Qc) : np_average [a; b] = (a + b) / 2.
Proof.
  unfold np_average. simpl.
  replace (Qc_of_Z 2) with 2 by (apply Qc_this_inj; reflexivity).
  rewrite Qcplus_0_r. reflexivity.
Qed.

Lemma extinction_attrs P :
  dp_upstr P ≠ 0 → dp_dwnstr P ≠ 0 →
  let K_R_1 := 3 * (1 - voidFrac P) / (dp_upstr P * 1000) in
  let K_R_2 := 3 * (1 - voidFrac P) / (dp_dwnstr P * 1000) in
  extinction (attrs P) = Ok (K_R_1, K_R_2, (K_R_1 + K_R_2) / 2).
Proof.
  intros Hu Hd K_R_1 K_R_2. unfold extinction.
  change (getattr (attrs P) "voidFrac") with (Ok (voidFrac P)).
  change (getattr (attrs P) "dp_upstr") with (Ok (dp_upstr P)).
  change (getattr (attrs P) "dp_dwnstr") with (Ok (dp_dwnstr P)).
  simpl.
  rewrite (pydiv_Ok _ (dp_upstr P * 1000)); simpl.
  2: { apply Qcmult_neq_0; [assumption | apply dec_1000_neq_0]. }
  rewrite (pydiv_Ok _ (dp_dwnstr P * 1000)); simpl.
  2: { apply Qcmult_neq_0; [assumption | apply dec_1000_neq_0]. }
  by rewrite np_average_two.
Qed.

Lemma extinction_zero_pore P :
  dp_upstr P = 0 ∨ dp_dwnstr P = 0 →
  extinction (attrs P) = Err ZeroDivisionError.
Proof.
  intros H. unfold extinction.
  change (getattr (attrs P) "voidFrac") with (Ok (voidFrac P)).
  change (getattr (attrs P) "dp_upstr") with (Ok (dp_upstr P)).
  change (getattr (attrs P) "dp_dwnstr") with (Ok (dp_dwnstr P)).
  simpl.
  destruct (decide (dp_upstr P = 0)) as [->|Hu].
  - by rewrite Qcmult_0_l, pydiv_zero.
  - rewrite (pydiv_Ok _ (dp_upstr P * 1000)); simpl.
    2: { apply Qcmult_neq_0; [assumption | apply dec_1000_neq_0]. }
    destruct H as [H| ->]; [contradiction|].
    by rewrite Qcmult_0_l, pydiv_zero.
Qed.

Lemma PMC_iota_attrs P cp :
  PMC_iota (attrs P) cp = pydiv (lambda_eff P) (massFlux P * cp * L P).
Proof. reflexivity. Qed.

(** With [ct] unbound the three groups are never obtained: the first
    failing line decides the exception. *)
Lemma PMC_groups_unbound_ct s P cp T0 :
  PMC_groups (PMC_py s) (attrs P) cp T0 =
  Err (if decide (dp_upstr P = 0 ∨ dp_dwnstr P = 0 ∨
                  massFlux P * cp * L P = 0)
       then ZeroDivisionError else NameError "ct").
Proof.
  unfold PMC_groups. case_decide as Hcase.
  - destruct (decide (dp_upstr P = 0 ∨ dp_dwnstr P = 0)) as [Hz|Hnz].
    + by rewrite (extinction_zero_pore P Hz).
    + assert (dp_upstr P ≠ 0 ∧ dp_dwnstr P ≠ 0) as [Hu Hd] by tauto.
      assert (massFlux P * cp * L P = 0) as Hm by tauto.
      rewrite (extinction_attrs P Hu Hd). simpl.
      by rewrite PMC_iota_attrs, Hm, pydiv_zero.
  - assert (dp_upstr P ≠ 0 ∧ dp_dwnstr P ≠ 0 ∧ massFlux P * cp * L P ≠ 0)
      as (Hu & Hd & Hm) by tauto.
    rewrite (extinction_attrs P Hu Hd). simpl.
    by rewrite PMC_iota_attrs, (pydiv_Ok _ _ Hm).
Qed.

Lemma PMC_theta_unbound_ct s P cp T0 T3a T4 f f_st LHV :
  PMC_theta (PMC_py s) (attrs P) cp T0 T3a T4 f f_st LHV =
  Err (if decide (T0 = 0 ∨ dp_upstr P = 0 ∨ dp_dwnstr P = 0 ∨
                  massFlux P * cp * L P = 0)
       then ZeroDivisionError else NameError "ct").
Proof.
  unfold PMC_theta, PMC_equations.
  destruct (decide (T0 = 0)) as [->|HT0].
  - rewrite pydiv_zero. case_decide; [reflexivity | tauto].
  - rewrite !(pydiv_Ok _ T0 HT0), mbind_Ok, mbind_Ok, PMC_groups_unbound_ct.
    repeat case_decide; try reflexivity; tauto.
Qed.

(** [PMC.run] as the module stands: it raises whatever the solver, and
    the object keeps its attributes. *)
Lemma PMC_run_unbound_ct s P cp T0 T3a T4 f f_st LHV :
  PMC_run (PMC_py s) (attrs P) cp T0 T3a T4 f f_st LHV =
  (Err (if decide (T0 = 0 ∨ dp_upstr P = 0 ∨ dp_dwnstr P = 0 ∨
                   massFlux P * cp * L P = 0)
        then ZeroDivisionError else NameError "ct"), attrs P).
Proof. apply PMC_run_Err, PMC_theta_unbound_ct. Qed.

(** [PMCNondim.run] does complete: the preset of [Properties.py] on the
    driver's inputs, with the reference solver. *)
Lemma fst_Ok_pair {A S} (p : result A * S) (a : A) :
  fst p = Ok a → p = (Ok a, snd p).
Proof. destruct p as [r s]. simpl. by intros ->. Qed.

Lemma PMCNondim_run_completes :
  ∃ self',
    PMCNondim_run (PMC_py Newton.solve) (nd_attrs InterfaceStabilizedNondim)
      driver.cp driver.T2 driver.T3a driver.T4 driver.f_loc driver.f_st
      driver.LHV = (Ok (), self').
Proof. eexists. apply fst_Ok_pair. vm_compute. reflexivity. Qed.

(** C4 (as amended). As the module stands, [PMC.run] raises on every
    input, whatever the solver, and leaves the object as it was: the
    exception is [NameError] on [ct] unless an earlier division fails
    ([T0], a pore diameter or [massFlux*cp*L] is zero), in which case it
    is [ZeroDivisionError]; [PMCNondim.run] does complete. *)
Theorem C4_dimensional_run_raises s P cp T0 T3a T4 f f_st LHV :
  PMC_run (PMC_py s) (attrs P) cp T0 T3a T4 f f_st LHV =
  (Err (if decide (T0 = 0 ∨ dp_upstr P = 0 ∨ dp_dwnstr P = 0 ∨
                   massFlux P * cp * L P = 0)
        then ZeroDivisionError else NameError "ct"), attrs P)
  ∧ ∃ self',
      PMCNondim_run (PMC_py Newton.solve)
        (nd_attrs InterfaceStabilizedNondim)
        driver.cp driver.T2 driver.T3a driver.T4 driver.f_loc driver.f_st
        driver.LHV = (Ok (), self').
Proof.
  split; [apply PMC_run_unbound_ct | apply PMCNondim_run_completes].
Qed.

(** C4 as stated fails when [cp] is zero: the division of line 36 raises
    before [ct] is ever looked up (a zero [T0] fails at line 29 in the
    same way). *)
Lemma C4_counterexample :
  fst (PMC_run (PMC_py Newton.solve) (attrs InterfaceStabilized)
         0 driver.T2 driver.T3a driver.T4 driver.f_loc driver.f_st
         driver.LHV) = Err ZeroDivisionError
  ∧ fst (PMC_run (PMC_py Newton.solve) (attrs InterfaceStabilized)
         0 driver.T2 driver.T3a driver.T4 driver.f_loc driver.f_st
         driver.LHV) ≠ Err (NameError "ct").
Proof.
  assert (fst (PMC_run (PMC_py Newton.solve) (attrs InterfaceStabilized)
         0 driver.T2 driver.T3a driver.T4 driver.f_loc driver.f_st
         driver.LHV) = Err ZeroDivisionError) as H by (vm_compute; reflexivity).
  split; [exact H|]. rewrite H. discriminate.
Qed.

(** ** The groups, when [ct] is bound *)

Lemma Qc_pos_neq_0 (x : Qc) : 0 < x → x ≠ 0.
Proof. intros H ->. exact (Qclt_not_eq _ _ H eq_refl). Qed.

Lemma dec_3_neq_0 : 3 ≠ 0.
Proof. discriminate. Qed.

Lemma K_R_neq_0 (vf du dd : Qc) :
  du ≠ 0 → dd ≠ 0 → vf ≠ 1 → du + dd ≠ 0 →
  (3 * (1 - vf) / (du * 1000) + 3 * (1 - vf) / (dd * 1000)) / 2 ≠ 0.
Proof.
  intros Hu Hd Hvf Hsum H0.
  assert (3 * (1 - vf) * (du + dd) =
          (3 * (1 - vf) / (du * 1000) + 3 * (1 - vf) / (dd * 1000)) / 2
          * (2 * 1000 * du * dd)) as Heq.
  { field. repeat split; try assumption; discriminate. }
  rewrite H0, Qcmult_0_l in Heq.
  apply Qcmult_integral in Heq as [Heq|Heq]; [|contradiction].
  apply Qcmult_integral in Heq as [Heq|Heq]; [by apply dec_3_neq_0|].
  apply Hvf. symmetry. rewrite <- (Qcplus_0_l vf), <- Heq. ring.
Qed.

Lemma PMC_groups_bound_ct s σ P cp T0 :
  dp_upstr P ≠ 0 → dp_dwnstr P ≠ 0 → massFlux P * cp * L P ≠ 0 →
  voidFrac P ≠ 1 → dp_upstr P + dp_dwnstr P ≠ 0 → lambda_eff P ≠ 0 →
  let K_R_1 := 3 * (1 - voidFrac P) / (dp_upstr P * 1000) in
  let K_R_2 := 3 * (1 - voidFrac P) / (dp_dwnstr P * 1000) in
  let K_R := (K_R_1 + K_R_2) / 2 in
  PMC_groups (with_ct s σ) (attrs P) cp T0 =
  Ok (lambda_eff P / (massFlux P * cp * L P),
      16 * σ * T0 ^ 3 / (3 * K_R * lambda_eff P),
      3 * emissivity P * K_R * (1 - voidFrac P) * L P / 16).
Proof.
  intros Hu Hd Hm Hvf Hsum Hl K_R_1 K_R_2 K_R. unfold PMC_groups.
  rewrite (extinction_attrs P Hu Hd). simpl.
  rewrite PMC_iota_attrs, (pydiv_Ok _ _ Hm), mbind_Ok.
  unfold PMC_delta, PMC_mu, with_ct, lookup_ct.
  change (getattr (attrs P) "lambda_eff") with (Ok (lambda_eff P)).
  change (getattr (attrs P) "emissivity") with (Ok (emissivity P)).
  change (getattr (attrs P) "voidFrac") with (Ok (voidFrac P)).
  change (getattr (attrs P) "L") with (Ok (L P)).
  cbn [ct stefan_boltzmann]. rewrite !mbind_Ok.
  rewrite npdiv_Ok; [reflexivity|].
  apply Qcmult_neq_0; [|assumption].
  apply Qcmult_neq_0; [apply dec_3_neq_0|].
  by apply K_R_neq_0.
Qed.



(** ** Rejection of non-physical parameters *)

(** C7 as stated fails at a zero pore diameter: the exception is Python's
    [ZeroDivisionError], not a [ConfigurationError]. *)
Lemma C7_counterexample :
  fst (PMC_run (PMC_py Newton.solve) (attrs zero_pore)
         driver.cp driver.T2 driver.T3a driver.T4 driver.f_loc driver.f_st
         driver.LHV) = Err ZeroDivisionError
  ∧ fst (PMC_run (PMC_py Newton.solve) (attrs zero_pore)
         driver.cp driver.T2 driver.T3a driver.T4 driver.f_loc driver.f_st
         driver.LHV) ≠ Err (Raised "ConfigurationError").
Proof.
  assert (fst (PMC_run (PMC_py Newton.solve) (attrs zero_pore)
         driver.cp driver.T2 driver.T3a driver.T4 driver.f_loc driver.f_st
         driver.LHV) = Err ZeroDivisionError) as H by (vm_compute; reflexivity).
  split; [exact H|]. rewrite H. discriminate.
Qed.

Lemma PMC_theta_zero_division g P cp T0 T3a T4 f f_st LHV :
  T0 = 0 ∨ dp_upstr P = 0 ∨ dp_dwnstr P = 0 ∨ massFlux P = 0 ∨ L P = 0 →
  PMC_theta g (attrs P) cp T0 T3a T4 f f_st LHV = Err ZeroDivisionError.
Proof.
  intros H. unfold PMC_theta, PMC_equations.
  destruct (decide (T0 = 0)) as [->|HT0]; [by rewrite pydiv_zero|].
  rewrite !(pydiv_Ok _ T0 HT0), mbind_Ok, mbind_Ok.
  unfold PMC_groups.
  destruct (decide (dp_upstr P = 0 ∨ dp_dwnstr P = 0)) as [Hz|Hnz].
  - by rewrite (extinction_zero_pore P Hz).
  - assert (dp_upstr P ≠ 0 ∧ dp_dwnstr P ≠ 0) as [Hu Hd] by tauto.
    rewrite (extinction_attrs P Hu Hd). simpl.
    assert (massFlux P * cp * L P = 0) as Hm.
    { destruct H as [?|[?|[?|[-> | ->]]]]; try tauto; ring. }
    by rewrite PMC_iota_attrs, Hm, pydiv_zero.
Qed.

Lemma PMCNondim_theta_T0_zero g self cp T3a T4 f f_st LHV :
  PMCNondim_theta g self cp 0 T3a T4 f f_st LHV = Err ZeroDivisionError.
Proof.
  unfold PMCNondim_theta, PMCNondim_equations. by rewrite pydiv_zero.
Qed.

(** C7 (as amended). The code validates nothing and has no exception
    classes of its own.  When [T0], a pore diameter, the mass flux or the
    length is zero, [PMC.run] raises [ZeroDivisionError], whatever the
    module namespace, and the object is left exactly as it was, with no
    result attribute; [PMCNondim.run] does the same when [T0] is zero.
    Negative pore diameters, conductivity, mass flux and length are not
    rejected, singly or together: where [ct] is bound, lines 32-38 return
    the three groups of their formulas for values of either sign, as long
    as no divisor is zero and the computed floats stay in range. *)
Theorem C7_zero_parameters_raise_ZeroDivisionError
    g P self cp T0 T3a T4 f f_st LHV :
  (T0 = 0 ∨ dp_upstr P = 0 ∨ dp_dwnstr P = 0 ∨ massFlux P = 0 ∨ L P = 0 →
   PMC_run g (attrs P) cp T0 T3a T4 f f_st LHV =
     (Err ZeroDivisionError, attrs P) ∧
   attrs P !! "T3x" = None ∧ attrs P !! "T3y" = None ∧
   attrs P !! "T3b" = None ∧ attrs P !! "TS1" = None ∧
   attrs P !! "TS2" = None) ∧
  (T0 = 0 →
   PMCNondim_run g self cp T0 T3a T4 f f_st LHV =
     (Err ZeroDivisionError, self)) ∧
  (dp_upstr P ≠ 0 → dp_dwnstr P ≠ 0 → dp_upstr P + dp_dwnstr P ≠ 0 →
   lambda_eff P ≠ 0 → massFlux P ≠ 0 → L P ≠ 0 → cp ≠ 0 →
   voidFrac P ≠ 1 →
   ∀ s σ,
     Forall in_float_range (PMC_groups_floats P σ cp T0) →
     let K_R_1 := 3 * (1 - voidFrac P) / (dp_upstr P * 1000) in
     let K_R_2 := 3 * (1 - voidFrac P) / (dp_dwnstr P * 1000) in
     let K_R := (K_R_1 + K_R_2) / 2 in
     PMC_groups (with_ct s σ) (attrs P) cp T0 =
     Ok (lambda_eff P / (massFlux P * cp * L P),
         16 * σ * T0 ^ 3 / (3 * K_R * lambda_eff P),
         3 * emissivity P * K_R * (1 - voidFrac P) * L P / 16)).
Proof.
  split; [|split].
  - intros H. split; [|by repeat split].
    by apply PMC_run_Err, PMC_theta_zero_division.
  - intros ->. apply PMCNondim_run_Err, PMCNondim_theta_T0_zero.
  - intros Hu Hd Hsum Hl Hm HL Hcp Hvf s σ _.
    apply PMC_groups_bound_ct; try assumption.
    repeat apply Qcmult_neq_0; assumption.
Qed.

(** ** The two entry points against each other *)

(** Once the groups have been obtained, [PMC.run] hands the solver what
    [PMCNondim.run] hands it for an object built from those groups. *)
Lemma PMC_equations_reduced g P cp T0 T3a T4 f f_st LHV iota delta mu :
  PMC_groups g (attrs P) cp T0 = Ok (iota, delta, mu) →
  PMC_equations g (attrs P) cp T0 T3a T4 f f_st LHV =
  PMCNondim_equations (nd_attrs (reduced P iota delta mu))
    cp T0 T3a T4 f f_st LHV.
Proof.
  intros Hgr. unfold PMC_equations, PMCNondim_equations.
  rewrite Hgr.
  destruct (pydiv T3a T0) as [th_3a|]; [|reflexivity].
  destruct (pydiv T4 T0) as [th_4|]; [|reflexivity].
  rewrite !mbind_Ok.
  change (getattr (attrs P) "DeltaT_PH") with (Ok (DeltaT_PH P)).
  change (getattr (attrs P) "DeltaT_RC") with (Ok (DeltaT_RC P)).
  change (getattr (nd_attrs (reduced P iota delta mu)) "DeltaT_PH")
    with (Ok (DeltaT_PH P)).
  change (getattr (nd_attrs (reduced P iota delta mu)) "DeltaT_RC")
    with (Ok (DeltaT_RC P)).
  change (getattr (nd_attrs (reduced P iota delta mu)) "iota")
    with (Ok iota).
  change (getattr (nd_attrs (reduced P iota delta mu)) "delta")
    with (Ok delta).
  change (getattr (nd_attrs (reduced P iota delta mu)) "mu") with (Ok mu).
  rewrite !mbind_Ok.
  destruct (pydiv (DeltaT_PH P) T0) as [Delta1|]; [|reflexivity].
  rewrite !mbind_Ok.
  destruct (pydiv (DeltaT_RC P) T0) as [Delta2|]; [|reflexivity].
  rewrite !mbind_Ok.
  destruct (adjust_LHV f f_st LHV) as [LHV'|]; reflexivity.
Qed.

Lemma PMC_theta_reduced g P cp T0 T3a T4 f f_st LHV iota delta mu :
  PMC_groups g (attrs P) cp T0 = Ok (iota, delta, mu) →
  PMC_theta g (attrs P) cp T0 T3a T4 f f_st LHV =
  PMCNondim_theta g (nd_attrs (reduced P iota delta mu))
    cp T0 T3a T4 f f_st LHV.
Proof.
  intros Hgr. unfold PMC_theta, PMCNondim_theta.
  by rewrite (PMC_equations_reduced _ _ _ _ _ _ _ _ _ _ _ _ Hgr).
Qed.

(** Were the groups obtained, the two runs would end alike and store the
    same five temperatures. *)
Lemma PMC_run_reduced g P cp T0 T3a T4 f f_st LHV iota delta mu :
  PMC_groups g (attrs P) cp T0 = Ok (iota, delta, mu) →
  let dim := PMC_run g (attrs P) cp T0 T3a T4 f f_st LHV in
  let nondim := PMCNondim_run g (nd_attrs (reduced P iota delta mu))
                  cp T0 T3a T4 f f_st LHV in
  fst dim = fst nondim ∧
  (fst dim = Ok () →
   ∀ k, k ∈ ["T3x"; "T3y"; "T3b"; "TS1"; "TS2"] →
        snd dim !! k = snd nondim !! k).
Proof.
  intros Hgr. simpl. unfold PMC_run, PMCNondim_run.
  rewrite (PMC_theta_reduced _ _ _ _ _ _ _ _ _ _ _ _ Hgr).
  destruct (PMCNondim_theta g (nd_attrs (reduced P iota delta mu))
              cp T0 T3a T4 f f_st LHV) as [SOL|e]; [|by split].
  rewrite !mbind_Ok. unfold finish.
  destruct (rescale SOL T0) as [|a [|b [|c [|d [|e rest]]]]];
    try (split; [reflexivity | discriminate]).
  unfold store, index. simpl. split; [reflexivity|].
  intros _ k Hk. set_unfold in Hk.
  destruct Hk as [->|[->|[->|[->|[->|[]]]]]]; by simplify_map_eq.
Qed.

(** C2, on the driver's own call. The dimensional run of [driver_dim.py]
    raises [NameError] on [ct] whatever the solver, and the combustor
    object gets no result attribute; with [ct.stefan_boltzmann] supplied,
    the same call obtains its three groups, and the non-dimensional run on
    those groups returns. *)
Theorem C2_driver_dimensional_run_raises :
  (∀ s, driver.main (PMC_py s) =
        (Err (NameError "ct"), attrs driver.myProps)) ∧
  ∃ iota delta mu self',
    PMC_groups (with_ct Newton.solve sigma_SB) (attrs driver.myProps)
      driver.cp driver.T2 = Ok (iota, delta, mu) ∧
    PMCNondim_run (PMC_py Newton.solve)
      (nd_attrs (reduced driver.myProps iota delta mu))
      driver.cp driver.T2 driver.T3a driver.T4 driver.f_loc driver.f_st
      driver.LHV = (Ok (), self').
Proof.
  split.
  - intros s. unfold driver.main. rewrite PMC_init_attrs.
    rewrite PMC_run_unbound_ct. case_decide as H; [exfalso|reflexivity].
    destruct H as [H|[H|[H|H]]]; apply (f_equal this) in H;
      vm_compute in H; discriminate.
  - eexists _, _, _, _. split.
    + vm_compute. reflexivity.
    + apply fst_Ok_pair. vm_compute. reflexivity.
Qed.

(** ** Scaling the temperatures *)

Lemma pydiv_scale (k a b : Qc) : k ≠ 0 → pydiv (k * a) (k * b) = pydiv a b.
Proof.
  intros Hk. destruct (decide (b = 0)) as [->|Hb].
  - by rewrite Qcmult_0_r, !pydiv_zero.
  - rewrite !pydiv_Ok; [|assumption|by apply Qcmult_neq_0].
    f_equal. field. by split.
Qed.

Lemma adjust_LHV_scale (k f f_st LHV : Qc) :
  adjust_LHV f f_st (k * LHV) = (L ← adjust_LHV f f_st LHV; Ok (k * L)).
Proof.
  unfold adjust_LHV. destruct (decide (f < f_st)); [reflexivity|].
  destruct (pydiv f f_st) as [r|]; [|reflexivity]. rewrite !mbind_Ok.
  destruct (decide (r = 0)) as [->|Hr].
  - by rewrite !pydiv_zero.
  - rewrite !pydiv_Ok by assumption. rewrite mbind_Ok. f_equal. by field.
Qed.

Lemma equations_scale (k iota delta mu th_3a th_4 Delta1 Delta2 : Qc)
    (cp T0 f LHV : Qc) :
  k ≠ 0 →
  equations iota delta mu th_3a th_4 Delta1 Delta2 cp (k * T0) f (k * LHV) =
  equations iota delta mu th_3a th_4 Delta1 Delta2 cp T0 f LHV.
Proof.
  intros Hk. unfold equations.
  replace (cp * (k * T0)) with (k * (cp * T0)) by ring.
  by rewrite pydiv_scale.
Qed.

Lemma PMCNondim_equations_scale N k cp T0 T3a T4 f f_st LHV :
  k ≠ 0 →
  PMCNondim_equations (nd_attrs (nd_scaled k N))
    cp (k * T0) (k * T3a) (k * T4) f f_st (k * LHV) =
  PMCNondim_equations (nd_attrs N) cp T0 T3a T4 f f_st LHV.
Proof.
  intros Hk. unfold PMCNondim_equations.
  change (getattr (nd_attrs (nd_scaled k N)) "DeltaT_PH")
    with (Ok (k * nd_DeltaT_PH N)).
  change (getattr (nd_attrs (nd_scaled k N)) "DeltaT_RC")
    with (Ok (k * nd_DeltaT_RC N)).
  change (getattr (nd_attrs (nd_scaled k N)) "iota") with (Ok (nd_iota N)).
  change (getattr (nd_attrs (nd_scaled k N)) "delta") with (Ok (nd_delta N)).
  change (getattr (nd_attrs (nd_scaled k N)) "mu") with (Ok (nd_mu N)).
  change (getattr (nd_attrs N) "DeltaT_PH") with (Ok (nd_DeltaT_PH N)).
  change (getattr (nd_attrs N) "DeltaT_RC") with (Ok (nd_DeltaT_RC N)).
  change (getattr (nd_attrs N) "iota") with (Ok (nd_iota N)).
  change (getattr (nd_attrs N) "delta") with (Ok (nd_delta N)).
  change (getattr (nd_attrs N) "mu") with (Ok (nd_mu N)).
  rewrite (pydiv_scale k T3a T0 Hk).
  destruct (pydiv T3a T0) as [th_3a|]; [|reflexivity].
  rewrite !mbind_Ok, (pydiv_scale k T4 T0 Hk).
  destruct (pydiv T4 T0) as [th_4|]; [|reflexivity].
  rewrite !mbind_Ok, (pydiv_scale k _ T0 Hk).
  destruct (pydiv (nd_DeltaT_PH N) T0) as [Delta1|]; [|reflexivity].
  rewrite !mbind_Ok, (pydiv_scale k _ T0 Hk).
  destruct (pydiv (nd_DeltaT_RC N) T0) as [Delta2|]; [|reflexivity].
  rewrite !mbind_Ok, adjust_LHV_scale.
  destruct (adjust_LHV f f_st LHV) as [LHV'|]; [|reflexivity].
  rewrite !mbind_Ok. by apply equations_scale.
Qed.

Lemma PMCNondim_theta_contract g self cp T0 T3a T4 f f_st LHV θ :
  solver_contract (nsolve g) →
  PMCNondim_theta g self cp T0 T3a T4 f f_st LHV = Ok θ →
  ∃ eqs, PMCNondim_equations self cp T0 T3a T4 f f_st LHV = Ok eqs ∧
         residuals_within eqs unknowns θ (dec 1e-6).
Proof.
  intros Hc Hth. unfold PMCNondim_theta in Hth.
  apply bind_Ok_inv in Hth as (eqs & Heqs & Hcall).
  exists eqs. split; [assumption|].
  unfold call_nsolve in Hcall.
  apply bind_Ok_inv in Hcall as (x0 & _ & Hsolve).
  by apply Hc in Hsolve as [_ Hres].
Qed.

(** C8 (as amended). Multiplying [T0], [T3a], [T4], both temperature
    offsets and also [LHV] by the same positive factor leaves the five
    residual expressions of [PMCNondim.run] unchanged; so under the
    contract of the solver the vectors returned before and after the
    scaling satisfy one and the same system to within 1e-6. *)
Theorem C8_scaling_preserves_equations N k cp T0 T3a T4 f f_st LHV :
  0 < k →
  PMCNondim_equations (nd_attrs (nd_scaled k N))
    cp (k * T0) (k * T3a) (k * T4) f f_st (k * LHV) =
  PMCNondim_equations (nd_attrs N) cp T0 T3a T4 f f_st LHV
  ∧ ∀ g θ θ',
      solver_contract (nsolve g) →
      PMCNondim_theta g (nd_attrs N) cp T0 T3a T4 f f_st LHV = Ok θ →
      PMCNondim_theta g (nd_attrs (nd_scaled k N))
        cp (k * T0) (k * T3a) (k * T4) f f_st (k * LHV) = Ok θ' →
      ∃ eqs,
        PMCNondim_equations (nd_attrs N) cp T0 T3a T4 f f_st LHV = Ok eqs ∧
        residuals_within eqs unknowns θ (dec 1e-6) ∧
        residuals_within eqs unknowns θ' (dec 1e-6).
Proof.
  intros Hk%Qc_pos_neq_0.
  pose proof (PMCNondim_equations_scale N k cp T0 T3a T4 f f_st LHV Hk) as Hsc.
  split; [exact Hsc|].
  intros g θ θ' Hc Hθ Hθ'.
  apply (PMCNondim_theta_contract _ _ _ _ _ _ _ _ _ _ Hc) in Hθ
    as (eqs & Heqs & Hres).
  apply (PMCNondim_theta_contract _ _ _ _ _ _ _ _ _ _ Hc) in Hθ'
    as (eqs' & Heqs' & Hres').
  rewrite Hsc, Heqs in Heqs'. injection Heqs' as <-.
  by exists eqs.
Qed.

(** Under the contract, the difference THETA_3y - THETA_3x of a returned
    vector lies within 1e-6 of the constant of residual 2. *)
Lemma residual2_bound g self cp T0 T3a T4 f f_st LHV θ :
  solver_contract (nsolve g) →
  PMCNondim_theta g self cp T0 T3a T4 f f_st LHV = Ok θ →
  let c := f / (f + 1) * (spec_LHV_eff f f_st LHV / (cp * T0)) in
  let d := assign unknowns θ "THETA_3y" - assign unknowns θ "THETA_3x" in
  c - dec 1e-6 ≤ d ∧ d ≤ c + dec 1e-6.
Proof.
  intros Hc Hθ c d.
  apply (PMCNondim_theta_contract _ _ _ _ _ _ _ _ _ _ Hc) in Hθ
    as (eqs & Heqs & Hres).
  apply PMCNondim_equations_inv in Heqs
    as (_ & iota & delta & mu & PH & RC & _ & _ & _ & _ & _ & Heqs).
  apply equations_inv in Heqs as (f1 & f2 & f3 & f4 & f5 & -> & Hev).
  unfold residuals_within in Hres.
  apply Forall_cons in Hres as [_ Hres].
  apply Forall_cons in Hres as [H2 _].
  destruct (Hev (assign unknowns θ)) as (_ & Hf2 & _).
  rewrite Hf2 in H2. unfold spec_f2, Qc_abs in H2.
  by apply Qcabs.Qcabs_diff_Qcle_condition in H2.
Qed.

(** Whatever solver meets the contract: on the preset with the driver's
    inputs, doubling [T0], [T3a], [T4] and the offsets alone cannot give
    the same vector, because the constant of residual 2 drops from about
    2.66 to about 1.33. *)
Lemma doubling_moves_solution g θ θ' :
  solver_contract (nsolve g) →
  PMCNondim_theta g (nd_attrs InterfaceStabilizedNondim)
    driver.cp driver.T2 driver.T3a driver.T4
    driver.f_loc driver.f_st driver.LHV = Ok θ →
  PMCNondim_theta g (nd_attrs (nd_scaled 2 InterfaceStabilizedNondim))
    driver.cp (2 * driver.T2) (2 * driver.T3a) (2 * driver.T4)
    driver.f_loc driver.f_st driver.LHV = Ok θ' →
  θ ≠ θ'.
Proof.
  intros Hc Hθ Hθ' <-.
  apply (residual2_bound _ _ _ _ _ _ _ _ _ _ Hc) in Hθ as [Hlo _].
  apply (residual2_bound _ _ _ _ _ _ _ _ _ _ Hc) in Hθ' as [_ Hhi].
  pose proof (Qcle_trans _ _ _ Hlo Hhi) as H.
  vm_compute in H. by apply H.
Qed.

Lemma show_Some_inv r l :
  show r = Some l → ∃ θ, r = Ok θ ∧ map this θ = l.
Proof. destruct r as [θ|e]; [|discriminate]. intros [= <-]. by exists θ. Qed.

(** C8 as stated fails on the preset of [Properties.py] with the driver's
    inputs and the factor two: doubling [T0], [T3a], [T4] and the offsets
    halves the constant of residual 2, and the solution vector moves from
    about (4.49, 7.15, 4.93, 4.56, 4.87) to about
    (3.15, 4.48, 3.61, 3.22, 3.54). *)
Lemma C8_counterexample :
  ∃ θ θ',
    PMCNondim_theta (PMC_py Newton.solve)
      (nd_attrs InterfaceStabilizedNondim)
      driver.cp driver.T2 driver.T3a driver.T4
      driver.f_loc driver.f_st driver.LHV = Ok θ ∧
    PMCNondim_theta (PMC_py Newton.solve)
      (nd_attrs (nd_scaled 2 InterfaceStabilizedNondim))
      driver.cp (2 * driver.T2) (2 * driver.T3a) (2 * driver.T4)
      driver.f_loc driver.f_st driver.LHV = Ok θ' ∧
    θ ≠ θ'.
Proof.
  destruct (show_Some_inv
    (PMCNondim_theta (PMC_py Newton.solve)
       (nd_attrs InterfaceStabilizedNondim)
       driver.cp driver.T2 driver.T3a driver.T4
       driver.f_loc driver.f_st driver.LHV)
    [4.494832532211%Q; 7.150307797567%Q; 4.93287121801%Q;
     (2280749599439 # 500000000000)%Q; 4.866204551343%Q])
    as (θ & Hθ & Hl); [vm_compute; reflexivity|].
  destruct (show_Some_inv
    (PMCNondim_theta (PMC_py Newton.solve)
       (nd_attrs (nd_scaled 2 InterfaceStabilizedNondim))
       driver.cp (2 * driver.T2) (2 * driver.T3a) (2 * driver.T4)
       driver.f_loc driver.f_st driver.LHV)
    [(1574855745247 # 500000000000)%Q; 4.477449123173%Q; 3.605133585331%Q;
     3.216378157161%Q; (707693383733 # 200000000000)%Q])
    as (θ' & Hθ' & Hl'); [vm_compute; reflexivity|].
  exists θ, θ'. split; [exact Hθ|]. split; [exact Hθ'|].
  intros Heq. rewrite Heq, Hl' in Hl. discriminate Hl.
Qed.

(** With [LHV] doubled as well the equations are the same, but the guess
    [(T3a+1000)/T3a] is not, and the reference solver stops at a vector
    that differs in the eighth decimal. *)
Lemma doubled_guess_changes_returned_vector :
  ∃ θ θ',
    PMCNondim_theta (PMC_py Newton.solve)
      (nd_attrs InterfaceStabilizedNondim)
      driver.cp driver.T2 driver.T3a driver.T4
      driver.f_loc driver.f_st driver.LHV = Ok θ ∧
    PMCNondim_theta (PMC_py Newton.solve)
      (nd_attrs (nd_scaled 2 InterfaceStabilizedNondim))
      driver.cp (2 * driver.T2) (2 * driver.T3a) (2 * driver.T4)
      driver.f_loc driver.f_st (2 * driver.LHV) = Ok θ' ∧
    θ !! 0%nat ≠ θ' !! 0%nat.
Proof.
  destruct (show_Some_inv
    (PMCNondim_theta (PMC_py Newton.solve)
       (nd_attrs InterfaceStabilizedNondim)
       driver.cp driver.T2 driver.T3a driver.T4
       driver.f_loc driver.f_st driver.LHV)
    [4.494832532211%Q; 7.150307797567%Q; 4.93287121801%Q;
     (2280749599439 # 500000000000)%Q; 4.866204551343%Q])
    as (θ & Hθ & Hl); [vm_compute; reflexivity|].
  destruct (show_Some_inv
    (PMCNondim_theta (PMC_py Newton.solve)
       (nd_attrs (nd_scaled 2 InterfaceStabilizedNondim))
       driver.cp (2 * driver.T2) (2 * driver.T3a) (2 * driver.T4)
       driver.f_loc driver.f_st (2 * driver.LHV))
    [4.494832549531%Q; 7.150307814887%Q; 4.93287121801%Q;
     4.561499216197%Q; 4.866204551343%Q])
    as (θ' & Hθ' & Hl'); [vm_compute; reflexivity|].
  exists θ, θ'. split; [exact Hθ|]. split; [exact Hθ'|].
  intros Heq.
  destruct θ as [|a θ]; [discriminate Hl|].
  destruct θ' as [|a' θ']; [discriminate Hl'|].
  injection Heq as ->. injection Hl as Ha _. injection Hl' as Ha' _.
  rewrite Ha' in Ha. discriminate Ha.
Qed.

(** ** The statements at concrete inputs *)

Lemma driver_inputs_fine :
  driver.T2 ≠ 0 ∧ driver.cp ≠ 0 ∧ driver.f_loc + 1 ≠ 0 ∧
  driver.f_loc < driver.f_st ∧ driver.T3a ≠ 0.
Proof. repeat split; try qc_neq. Qed.

(** The floats computed on the inputs used below stay in range. *)
Lemma driver_floats_in_range :
  Forall in_float_range
    (PMCNondim_floats InterfaceStabilizedNondim driver.cp driver.T2
       driver.T3a driver.T4 driver.f_loc driver.f_st driver.LHV
     ++ guess_floats driver.T3a).
Proof. float_range. Qed.

Lemma rich_floats_in_range :
  Forall in_float_range
    (PMCNondim_floats InterfaceStabilizedNondim driver.cp driver.T2
       driver.T3a driver.T4 (2 * driver.f_st) driver.f_st driver.LHV).
Proof. float_range. Qed.

Lemma negative_pore_floats_in_range :
  Forall in_float_range
    (PMC_groups_floats negative_pore sigma_SB driver.cp driver.T2).
Proof. float_range. Qed.

Lemma negative_matrix_floats_in_range :
  Forall in_float_range
    (PMC_groups_floats negative_matrix sigma_SB driver.cp driver.T2).
Proof. float_range. Qed.

Lemma C1_witness :
  ∃ self' θ,
    PMCNondim_run (PMC_py Newton.solve) (nd_attrs InterfaceStabilizedNondim)
      driver.cp driver.T2 driver.T3a driver.T4 driver.f_loc driver.f_st
      driver.LHV = (Ok (), self') ∧
    stored_theta self' driver.T2 = Some θ ∧
    spec_residuals_within (dec 0.05) (dec 1.38) (dec 0.0) (dec 20.0)
      (dec 20.0) driver.cp driver.T2 driver.T3a driver.T4 driver.f_loc
      (spec_LHV_eff driver.f_loc driver.f_st driver.LHV) θ (dec 1e-6).
Proof.
  destruct PMCNondim_run_completes as [self' Hrun].
  destruct (proj1 (C1_residuals_at_stored_solution
                     (PMC_py Newton.solve)
                     (nd_attrs InterfaceStabilizedNondim)
                     driver.cp driver.T2 driver.T3a driver.T4 driver.f_loc
                     driver.f_st driver.LHV self' Newton_solve_contract)
                  Hrun)
    as (iota & delta & mu & PH & RC & θ & Hi & Hd & Hm & HPH & HRC & Hθ & Hres).
  change (getattr (nd_attrs InterfaceStabilizedNondim) "iota")
    with (Ok (dec 0.05)) in Hi.
  change (getattr (nd_attrs InterfaceStabilizedNondim) "delta")
    with (Ok (dec 1.38)) in Hd.
  change (getattr (nd_attrs InterfaceStabilizedNondim) "mu")
    with (Ok (dec 0.0)) in Hm.
  change (getattr (nd_attrs InterfaceStabilizedNondim) "DeltaT_PH")
    with (Ok (dec 20.0)) in HPH.
  change (getattr (nd_attrs InterfaceStabilizedNondim) "DeltaT_RC")
    with (Ok (dec 20.0)) in HRC.
  injection Hi as <-. injection Hd as <-. injection Hm as <-.
  injection HPH as <-. injection HRC as <-.
  exists self', θ. split; [exact Hrun|]. split; [exact Hθ | exact Hres].
Defined.


Lemma C5_witness :
  (∃ eqs f2,
     PMCNondim_equations (nd_attrs InterfaceStabilizedNondim)
       driver.cp driver.T2 driver.T3a driver.T4 driver.f_loc driver.f_st
       driver.LHV = Ok eqs ∧
     eqs !! 1%nat = Some f2 ∧
     ∀ ρ : string → Qc,
       eval ρ f2 =
       driver.f_loc / (driver.f_loc + 1)
       * (driver.LHV / (driver.cp * driver.T2))
       - (ρ "THETA_3y" - ρ "THETA_3x")) ∧
  (∃ eqs f2,
     PMCNondim_equations (nd_attrs InterfaceStabilizedNondim)
       driver.cp driver.T2 driver.T3a driver.T4 (2 * driver.f_st)
       driver.f_st driver.LHV = Ok eqs ∧
     eqs !! 1%nat = Some f2 ∧
     ∀ ρ : string → Qc,
       eval ρ f2 =
       2 * driver.f_st / (2 * driver.f_st + 1)
       * (driver.LHV / (2 * driver.f_st / driver.f_st)
          / (driver.cp * driver.T2))
       - (ρ "THETA_3y" - ρ "THETA_3x")).
Proof.
  destruct driver_inputs_fine as (HT0 & Hcp & Hf & Hlean & _).
  assert (2 * driver.f_st + 1 ≠ 0) as Hf' by qc_neq.
  assert (driver.f_st ≤ 2 * driver.f_st) as Hrich by (by vm_compute).
  assert (driver.f_st ≠ 0) as Hst by qc_neq.
  assert (2 * driver.f_st ≠ 0) as Hf0 by qc_neq.
  split.
  - exact (proj2 (proj1 (proj2 (C5_heating_value_branch
             (PMC_py Newton.solve) ∅ InterfaceStabilizedNondim
             driver.cp driver.T2 driver.T3a driver.T4 driver.f_loc
             driver.f_st driver.LHV) HT0 Hcp Hf
             (proj1 (proj1 (Forall_app _ _ _) driver_floats_in_range)))
           Hlean)).
  - exact (proj2 (proj2 (proj2 (C5_heating_value_branch
             (PMC_py Newton.solve) ∅ InterfaceStabilizedNondim
             driver.cp driver.T2 driver.T3a driver.T4 (2 * driver.f_st)
             driver.f_st driver.LHV) HT0 Hcp Hf' rich_floats_in_range)
           Hrich Hst Hf0)).
Defined.

Lemma C6_witness :
  ∃ eqs,
    PMCNondim_equations (nd_attrs InterfaceStabilizedNondim)
      driver.cp driver.T2 driver.T3a driver.T4 driver.f_loc driver.f_st
      driver.LHV = Ok eqs ∧
    builds_spec_system eqs (dec 0.05) (dec 1.38) (dec 0.0) (dec 20.0)
      (dec 20.0) driver.cp driver.T2 driver.T3a driver.T4 driver.f_loc
      (spec_LHV_eff driver.f_loc driver.f_st driver.LHV).
Proof.
  destruct driver_inputs_fine as (HT0 & Hcp & Hf & Hlean & _).
  exact (proj1 (C6_equation_builder InterfaceStabilizedNondim
           driver.cp driver.T2 driver.T3a driver.T4 driver.f_loc
           driver.f_st driver.LHV
           (proj1 (proj1 (Forall_app _ _ _) driver_floats_in_range)))
         HT0 Hcp Hf (or_introl Hlean)).
Defined.

Lemma C7_witness :
  PMC_run (PMC_py Newton.solve) (attrs zero_pore)
    driver.cp driver.T2 driver.T3a driver.T4 driver.f_loc driver.f_st
    driver.LHV = (Err ZeroDivisionError, attrs zero_pore) ∧
  PMCNondim_run (PMC_py Newton.solve) (nd_attrs InterfaceStabilizedNondim)
    driver.cp 0 driver.T3a driver.T4 driver.f_loc driver.f_st
    driver.LHV = (Err ZeroDivisionError, nd_attrs InterfaceStabilizedNondim) ∧
  is_Ok (PMC_groups (with_ct Newton.solve sigma_SB) (attrs negative_pore)
           driver.cp driver.T2) ∧
  is_Ok (PMC_groups (with_ct Newton.solve sigma_SB) (attrs negative_matrix)
           driver.cp driver.T2).
Proof.
  split; [|split; [|split]].
  - exact (proj1 (proj1 (C7_zero_parameters_raise_ZeroDivisionError
             (PMC_py Newton.solve) zero_pore ∅
             driver.cp driver.T2 driver.T3a driver.T4 driver.f_loc
             driver.f_st driver.LHV)
             (or_intror (or_introl eq_refl)))).
  - exact (proj1 (proj2 (C7_zero_parameters_raise_ZeroDivisionError
             (PMC_py Newton.solve) zero_pore
             (nd_attrs InterfaceStabilizedNondim)
             driver.cp 0 driver.T3a driver.T4 driver.f_loc
             driver.f_st driver.LHV)) eq_refl).
  - assert (dp_upstr negative_pore ≠ 0) as H1 by qc_neq.
    assert (dp_dwnstr negative_pore ≠ 0) as H2 by qc_neq.
    assert (dp_upstr negative_pore + dp_dwnstr negative_pore ≠ 0)
      as H3 by qc_neq.
    assert (lambda_eff negative_pore ≠ 0) as H4 by qc_neq.
    assert (massFlux negative_pore ≠ 0) as H5 by qc_neq.
    assert (L negative_pore ≠ 0) as H6 by qc_neq.
    assert (driver.cp ≠ 0) as H7 by qc_neq.
    assert (voidFrac negative_pore ≠ 1) as H8 by qc_neq.
    eexists.
    exact (proj2 (proj2 (C7_zero_parameters_raise_ZeroDivisionError
             (PMC_py Newton.solve) negative_pore ∅
             driver.cp driver.T2 driver.T3a driver.T4 driver.f_loc
             driver.f_st driver.LHV))
             H1 H2 H3 H4 H5 H6 H7 H8 Newton.solve sigma_SB
             negative_pore_floats_in_range).
  - assert (dp_upstr negative_matrix ≠ 0) as H1 by qc_neq.
    assert (dp_dwnstr negative_matrix ≠ 0) as H2 by qc_neq.
    assert (dp_upstr negative_matrix + dp_dwnstr negative_matrix ≠ 0)
      as H3 by qc_neq.
    assert (lambda_eff negative_matrix ≠ 0) as H4 by qc_neq.
    assert (massFlux negative_matrix ≠ 0) as H5 by qc_neq.
    assert (L negative_matrix ≠ 0) as H6 by qc_neq.
    assert (driver.cp ≠ 0) as H7 by qc_neq.
    assert (voidFrac negative_matrix ≠ 1) as H8 by qc_neq.
    eexists.
    exact (proj2 (proj2 (C7_zero_parameters_raise_ZeroDivisionError
             (PMC_py Newton.solve) negative_matrix ∅
             driver.cp driver.T2 driver.T3a driver.T4 driver.f_loc
             driver.f_st driver.LHV))
             H1 H2 H3 H4 H5 H6 H7 H8 Newton.solve sigma_SB
             negative_matrix_floats_in_range).
Defined.

Lemma C8_witness :
  PMCNondim_equations (nd_attrs (nd_scaled 2 InterfaceStabilizedNondim))
    driver.cp (2 * driver.T2) (2 * driver.T3a) (2 * driver.T4)
    driver.f_loc driver.f_st (2 * driver.LHV) =
  PMCNondim_equations (nd_attrs InterfaceStabilizedNondim)
    driver.cp driver.T2 driver.T3a driver.T4
    driver.f_loc driver.f_st driver.LHV.
Proof.
  assert (0 < 2) as H2 by reflexivity.
  exact (proj1 (C8_scaling_preserves_equations InterfaceStabilizedNondim 2
                  driver.cp driver.T2 driver.T3a driver.T4
                  driver.f_loc driver.f_st driver.LHV H2)).
Defined.

Lemma C9_witness :
  PMCNondim_theta (PMC_py Newton.solve) (nd_attrs InterfaceStabilizedNondim)
    driver.cp driver.T2 driver.T3a driver.T4 driver.f_loc driver.f_st
    driver.LHV =
  Newton.solve
    (from_Ok [] (PMCNondim_equations (nd_attrs InterfaceStabilizedNondim)
       driver.cp driver.T2 driver.T3a driver.T4 driver.f_loc driver.f_st
       driver.LHV))
    ["THETA_3x"; "THETA_3y"; "THETA_3b"; "THETA_S1"; "THETA_S2"]
    [(driver.T3a + 1000) / driver.T3a; (driver.T3a + 1500) / driver.T3a;
     (driver.T3a + 1000) / driver.T3a; (driver.T3a + 1000) / driver.T3a;
     (driver.T3a + 1000) / driver.T3a]
    (dec 1e-6).
Proof.
  destruct driver_inputs_fine as (HT0 & Hcp & Hf & Hlean & HT3a).
  destruct (PMCNondim_equations_Ok InterfaceStabilizedNondim
              driver.cp driver.T2 driver.T3a driver.T4 driver.f_loc
              driver.f_st driver.LHV HT0 Hcp Hf (or_introl Hlean))
    as [_ [eqs Heqs]].
  rewrite Heqs.
  exact (proj1 (C9_initial_guess (PMC_py Newton.solve)
                  (nd_attrs InterfaceStabilizedNondim)
                  driver.cp driver.T2 driver.T3a driver.T4 driver.f_loc
                  driver.f_st driver.LHV eqs HT3a) Heqs).
Defined.

Lemma C10_witness :
  PMCNondim_run (PMC_py Newton.solve) (nd_attrs nd_singular)
    driver.cp driver.T2 driver.T3a driver.T4 driver.f_loc driver.f_st
    driver.LHV = (Err ZeroDivisionError, nd_attrs nd_singular).
Proof.
  refine (proj1 (C10_failed_solve_leaves_object_unchanged
            (PMC_py Newton.solve) (nd_attrs nd_singular)
            driver.cp driver.T2 driver.T3a driver.T4 driver.f_loc
            driver.f_st driver.LHV
            (from_Ok [] (PMCNondim_equations (nd_attrs nd_singular)
               driver.cp driver.T2 driver.T3a driver.T4 driver.f_loc
               driver.f_st driver.LHV))
            (from_Ok [] (initial_guess driver.T3a))
            ZeroDivisionError _ _) _);
    vm_compute; reflexivity.
Defined.

(** * Further properties of the code *)

(** ** The constructors *)

Lemma getattr_Ok_iff (o : gmap string Qc) a v :
  getattr o a = Ok v ↔ o !! a = Some v.
Proof.
  unfold getattr. destruct (o !! a) as [w|]; split; intros H;
    try discriminate; by injection H as ->.
Qed.

Lemma getattr_None (o : gmap string Qc) a :
  o !! a = None → getattr o a = Err (AttributeError a).
Proof. unfold getattr. by intros ->. Qed.

(** Copying succeeds when every listed attribute exists; the listed
    attributes then hold the source's values and nothing else changes. *)
Lemma copy_attrs_Ok names (src self : gmap string Qc) :
  (∀ a, a ∈ names → is_Some (src !! a)) →
  ∃ self', copy_attrs names src self = Ok self' ∧
           (∀ a, a ∈ names → self' !! a = src !! a) ∧
           (∀ a, a ∉ names → self' !! a = self !! a).
Proof.
  revert self. induction names as [|a names IH]; intros self Hall.
  - exists self. split; [reflexivity|]. split; [|done].
    intros a Ha. by apply elem_of_nil in Ha.
  - destruct (Hall a) as [v Hv]; [by left|].
    destruct (IH (<[a := v]> self)) as (self' & Hcopy & Hin & Hout).
    { intros b Hb. apply Hall. by right. }
    exists self'. split; [|split].
    + simpl. apply getattr_Ok_iff in Hv. by rewrite Hv.
    + intros b Hb. destruct (decide (b ∈ names)) as [Hbn|Hbn]; [by apply Hin|].
      apply elem_of_cons in Hb as [->|Hb]; [|contradiction].
      by rewrite (Hout a Hbn), lookup_insert_eq.
    + intros b Hb. apply not_elem_of_cons in Hb as [Hne Hbn].
      by rewrite (Hout b Hbn), lookup_insert_ne.
Qed.

(** Copying fails at the first listed attribute the source lacks. *)
Lemma copy_attrs_Err names (src self : gmap string Qc) pre a post :
  names = pre ++ a :: post →
  (∀ b, b ∈ pre → is_Some (src !! b)) → src !! a = None →
  copy_attrs names src self = Err (AttributeError a).
Proof.
  intros -> Hpre Ha. revert self.
  induction pre as [|b pre IH]; intros self; simpl.
  - by rewrite (getattr_None _ _ Ha).
  - destruct (Hpre b) as [v Hv]; [by left|].
    apply getattr_Ok_iff in Hv. rewrite Hv, mbind_Ok.
    apply IH. intros c Hc. apply Hpre. by right.
Qed.

(** X1. A constructor given data that has every attribute it reads builds
    an object with exactly those attributes and the data's values: nine
    for [PMC], five for [PMCNondim]; any other attribute of the data is
    not carried over. *)
Theorem X1_constructors_copy_exactly_their_attributes
    (PMCData : gmap string Qc) :
  ((∀ a, a ∈ ["lambda_eff"; "voidFrac"; "massFlux"; "L"; "dp_upstr";
              "dp_dwnstr"; "emissivity"; "DeltaT_PH"; "DeltaT_RC"] →
         is_Some (PMCData !! a)) →
   ∃ self,
     PMC_init PMCData = Ok self ∧
     ∀ a, self !! a =
          if decide (a ∈ ["lambda_eff"; "voidFrac"; "massFlux"; "L";
                          "dp_upstr"; "dp_dwnstr"; "emissivity";
                          "DeltaT_PH"; "DeltaT_RC"])
          then PMCData !! a else None) ∧
  ((∀ a, a ∈ ["iota"; "delta"; "mu"; "DeltaT_PH"; "DeltaT_RC"] →
         is_Some (PMCData !! a)) →
   ∃ self,
     PMCNondim_init PMCData = Ok self ∧
     ∀ a, self !! a =
          if decide (a ∈ ["iota"; "delta"; "mu"; "DeltaT_PH"; "DeltaT_RC"])
          then PMCData !! a else None).
Proof.
  split; intros Hall.
  - destruct (copy_attrs_Ok _ PMCData ∅ Hall) as (self & Hc & Hin & Hout).
    exists self. split; [exact Hc|]. intros a.
    case_decide as Ha; [by apply Hin|]. by rewrite (Hout a Ha).
  - destruct (copy_attrs_Ok _ PMCData ∅ Hall) as (self & Hc & Hin & Hout).
    exists self. split; [exact Hc|]. intros a.
    case_decide as Ha; [by apply Hin|]. by rewrite (Hout a Ha).
Qed.

(** X2. A constructor given data that lacks an attribute it reads raises
    [AttributeError] for the first such attribute in the order of its
    assignments, and no object is built.  In particular [PMCNondim], which
    does not call the constructor of [PMC], rejects the dimensional preset
    at ["iota"], and [PMC] rejects the non-dimensional preset at
    ["lambda_eff"]. *)
Theorem X2_constructors_fail_at_first_missing_attribute
    (PMCData : gmap string Qc) pre a post :
  (∀ b, b ∈ pre → is_Some (PMCData !! b)) → PMCData !! a = None →
  (["lambda_eff"; "voidFrac"; "massFlux"; "L"; "dp_upstr"; "dp_dwnstr";
    "emissivity"; "DeltaT_PH"; "DeltaT_RC"] = pre ++ a :: post →
   PMC_init PMCData = Err (AttributeError a)) ∧
  (["iota"; "delta"; "mu"; "DeltaT_PH"; "DeltaT_RC"] = pre ++ a :: post →
   PMCNondim_init PMCData = Err (AttributeError a)) ∧
  (∀ P, PMCNondim_init (attrs P) = Err (AttributeError "iota")) ∧
  (∀ N, PMC_init (nd_attrs N) = Err (AttributeError "lambda_eff")).
Proof.
  intros Hpre Ha. split; [|split; [|split]].
  - intros Hnames. by eapply copy_attrs_Err.
  - intros Hnames. by eapply copy_attrs_Err.
  - reflexivity.
  - reflexivity.
Qed.

(** ** What a run reads and what it writes *)

Lemma getattr_agree (o1 o2 : gmap string Qc) a :
  o1 !! a = o2 !! a → getattr o1 a = getattr o2 a.
Proof. unfold getattr. by intros ->. Qed.

Lemma PMCNondim_equations_frame (self1 self2 : gmap string Qc)
    cp T0 T3a T4 f f_st LHV :
  (∀ a, a ∈ ["iota"; "delta"; "mu"; "DeltaT_PH"; "DeltaT_RC"] →
        self1 !! a = self2 !! a) →
  PMCNondim_equations self1 cp T0 T3a T4 f f_st LHV =
  PMCNondim_equations self2 cp T0 T3a T4 f f_st LHV.
Proof.
  intros H. unfold PMCNondim_equations.
  rewrite (getattr_agree self1 self2 "DeltaT_PH") by (apply H; in_names).
  rewrite (getattr_agree self1 self2 "DeltaT_RC") by (apply H; in_names).
  rewrite (getattr_agree self1 self2 "iota") by (apply H; in_names).
  rewrite (getattr_agree self1 self2 "delta") by (apply H; in_names).
  by rewrite (getattr_agree self1 self2 "mu") by (apply H; in_names).
Qed.

Lemma extinction_frame (self1 self2 : gmap string Qc) :
  (∀ a, a ∈ ["voidFrac"; "dp_upstr"; "dp_dwnstr"] → self1 !! a = self2 !! a) →
  extinction self1 = extinction self2.
Proof.
  intros H. unfold extinction.
  rewrite (getattr_agree self1 self2 "voidFrac") by (apply H; in_names).
  rewrite (getattr_agree self1 self2 "dp_upstr") by (apply H; in_names).
  by rewrite (getattr_agree self1 self2 "dp_dwnstr") by (apply H; in_names).
Qed.

Lemma PMC_groups_frame g (self1 self2 : gmap string Qc) cp T0 :
  (∀ a, a ∈ ["lambda_eff"; "voidFrac"; "massFlux"; "L"; "dp_upstr";
             "dp_dwnstr"; "emissivity"] → self1 !! a = self2 !! a) →
  PMC_groups g self1 cp T0 = PMC_groups g self2 cp T0.
Proof.
  intros H. unfold PMC_groups, PMC_iota, PMC_delta, PMC_mu.
  rewrite (extinction_frame self1 self2) by (intros a Ha; apply H; sub_names Ha).
  rewrite (getattr_agree self1 self2 "lambda_eff") by (apply H; in_names).
  rewrite (getattr_agree self1 self2 "massFlux") by (apply H; in_names).
  rewrite (getattr_agree self1 self2 "L") by (apply H; in_names).
  rewrite (getattr_agree self1 self2 "emissivity") by (apply H; in_names).
  by rewrite (getattr_agree self1 self2 "voidFrac") by (apply H; in_names).
Qed.

Lemma PMC_equations_frame g (self1 self2 : gmap string Qc)
    cp T0 T3a T4 f f_st LHV :
  (∀ a, a ∈ ["lambda_eff"; "voidFrac"; "massFlux"; "L"; "dp_upstr";
             "dp_dwnstr"; "emissivity"; "DeltaT_PH"; "DeltaT_RC"] →
        self1 !! a = self2 !! a) →
  PMC_equations g self1 cp T0 T3a T4 f f_st LHV =
  PMC_equations g self2 cp T0 T3a T4 f f_st LHV.
Proof.
  intros H. unfold PMC_equations.
  rewrite (PMC_groups_frame g self1 self2)
    by (intros a Ha; apply H; sub_names Ha).
  rewrite (getattr_agree self1 self2 "DeltaT_PH") by (apply H; in_names).
  by rewrite (getattr_agree self1 self2 "DeltaT_RC") by (apply H; in_names).
Qed.

(** X3. A run reads nothing of its object but the parameters its
    constructor stored: two objects that agree on those attributes hand
    the same equations to the solver and get the same vector back,
    whatever else they hold (such as the temperatures of an earlier
    run). *)
Theorem X3_run_reads_only_its_parameters g (self1 self2 : gmap string Qc)
    cp T0 T3a T4 f f_st LHV :
  ((∀ a, a ∈ ["iota"; "delta"; "mu"; "DeltaT_PH"; "DeltaT_RC"] →
         self1 !! a = self2 !! a) →
   PMCNondim_theta g self1 cp T0 T3a T4 f f_st LHV =
   PMCNondim_theta g self2 cp T0 T3a T4 f f_st LHV) ∧
  ((∀ a, a ∈ ["lambda_eff"; "voidFrac"; "massFlux"; "L"; "dp_upstr";
              "dp_dwnstr"; "emissivity"; "DeltaT_PH"; "DeltaT_RC"] →
         self1 !! a = self2 !! a) →
   PMC_theta g self1 cp T0 T3a T4 f f_st LHV =
   PMC_theta g self2 cp T0 T3a T4 f f_st LHV).
Proof.
  split; intros H.
  - unfold PMCNondim_theta. by rewrite (PMCNondim_equations_frame self1 self2).
  - unfold PMC_theta. by rewrite (PMC_equations_frame g self1 self2).
Qed.

Lemma store_Ok_inv SOL (self self' : gmap string Qc) :
  store SOL self = (Ok (), self') →
  ∃ a b c d e rest,
    SOL = a :: b :: c :: d :: e :: rest ∧
    self' = <["TS2" := e]> (<["TS1" := d]> (<["T3b" := c]> (
            <["T3y" := b]> (<["T3x" := a]> self)))).
Proof.
  destruct SOL as [|a [|b [|c [|d [|e rest]]]]]; try discriminate.
  intros [= <-]. by exists a, b, c, d, e, rest.
Qed.

Lemma store_Ok_any a b c d e rest (self : gmap string Qc) :
  store (a :: b :: c :: d :: e :: rest) self =
  (Ok (), <["TS2" := e]> (<["TS1" := d]> (<["T3b" := c]> (
          <["T3y" := b]> (<["T3x" := a]> self))))).
Proof. reflexivity. Qed.

(** Storing over an object that already holds temperatures gives what
    storing over the original object gives. *)
Lemma store_overwrites SOL1 SOL2 (self self1 self2 : gmap string Qc) :
  store SOL1 self = (Ok (), self1) →
  store SOL2 self = (Ok (), self2) →
  store SOL2 self1 = (Ok (), self2).
Proof.
  intros (a1 & b1 & c1 & d1 & e1 & r1 & -> & ->)%store_Ok_inv.
  intros (a2 & b2 & c2 & d2 & e2 & r2 & -> & ->)%store_Ok_inv.
  rewrite store_Ok_any. f_equal.
  apply map_eq. intros k. map_lookups.
Qed.

Lemma store_keeps_parameters SOL (self self' : gmap string Qc) :
  store SOL self = (Ok (), self') →
  ∀ k, k ∉ ["T3x"; "T3y"; "T3b"; "TS1"; "TS2"] → self' !! k = self !! k.
Proof.
  intros (a & b & c & d & e & r & -> & ->)%store_Ok_inv k Hk.
  rewrite !not_elem_of_cons in Hk. destruct Hk as (? & ? & ? & ? & ? & _).
  by rewrite !lookup_insert_ne.
Qed.

(** X4. A run that returns has assigned [SOL[0..4]*T0] to T3x, T3y, T3b,
    TS1, TS2, where [SOL] is what the solver returned, and has left every
    other attribute of the object as it was; entries of [SOL] beyond the
    fifth are ignored. *)
Theorem X4_successful_run_stores_rescaled_solution
    g (self self' : gmap string Qc) cp T0 T3a T4 f f_st LHV :
  (PMCNondim_run g self cp T0 T3a T4 f f_st LHV = (Ok (), self') →
   ∃ a b c d e rest,
     PMCNondim_theta g self cp T0 T3a T4 f f_st LHV =
       Ok (a :: b :: c :: d :: e :: rest) ∧
     self' !! "T3x" = Some (a * T0) ∧ self' !! "T3y" = Some (b * T0) ∧
     self' !! "T3b" = Some (c * T0) ∧ self' !! "TS1" = Some (d * T0) ∧
     self' !! "TS2" = Some (e * T0) ∧
     ∀ k, k ∉ ["T3x"; "T3y"; "T3b"; "TS1"; "TS2"] → self' !! k = self !! k) ∧
  (PMC_run g self cp T0 T3a T4 f f_st LHV = (Ok (), self') →
   ∃ a b c d e rest,
     PMC_theta g self cp T0 T3a T4 f f_st LHV =
       Ok (a :: b :: c :: d :: e :: rest) ∧
     self' !! "T3x" = Some (a * T0) ∧ self' !! "T3y" = Some (b * T0) ∧
     self' !! "T3b" = Some (c * T0) ∧ self' !! "TS1" = Some (d * T0) ∧
     self' !! "TS2" = Some (e * T0) ∧
     ∀ k, k ∉ ["T3x"; "T3y"; "T3b"; "TS1"; "TS2"] → self' !! k = self !! k).
Proof.
  assert (∀ r : result (list Qc),
            finish (SOL ← r; Ok (rescale SOL T0)) self = (Ok (), self') →
            ∃ a b c d e rest,
              r = Ok (a :: b :: c :: d :: e :: rest) ∧
              self' !! "T3x" = Some (a * T0) ∧ self' !! "T3y" = Some (b * T0) ∧
              self' !! "T3b" = Some (c * T0) ∧ self' !! "TS1" = Some (d * T0) ∧
              self' !! "TS2" = Some (e * T0) ∧
              ∀ k, k ∉ ["T3x"; "T3y"; "T3b"; "TS1"; "TS2"] →
                   self' !! k = self !! k) as Hfin.
  { intros r Hrun.
    apply finish_Ok_inv in Hrun as (SOL' & Hsol & Hstore).
    apply bind_Ok_inv in Hsol as (SOL & -> & [= <-]).
    pose proof (store_keeps_parameters _ _ _ Hstore) as Hkeep.
    apply store_Ok_inv in Hstore as (a' & b' & c' & d' & e' & r' & Hres & ->).
    destruct SOL as [|a [|b [|c [|d [|e rest]]]]]; try discriminate Hres.
    injection Hres as <- <- <- <- <- _.
    exists a, b, c, d, e, rest. split; [reflexivity|].
    split; [by simplify_map_eq|]. split; [by simplify_map_eq|].
    split; [by simplify_map_eq|]. split; [by simplify_map_eq|].
    split; [by simplify_map_eq | exact Hkeep]. }
  split; intros Hrun; by apply Hfin.
Qed.

(** X5. What a run does is independent of the temperatures an earlier run
    left on the object: after a run that returned, a second run that
    returns on the fresh object returns on the used one with the same
    final state (so repeating a run changes nothing), and a second run
    that fails before storing fails alike and keeps the temperatures of
    the first. *)
Theorem X5_runs_do_not_depend_on_earlier_results
    g (self self1 : gmap string Qc) cp T0 T3a T4 f f_st LHV
    cp' T0' T3a' T4' f' f_st' LHV' :
  PMCNondim_run g self cp T0 T3a T4 f f_st LHV = (Ok (), self1) →
  (∀ self2,
     PMCNondim_run g self cp' T0' T3a' T4' f' f_st' LHV' = (Ok (), self2) →
     PMCNondim_run g self1 cp' T0' T3a' T4' f' f_st' LHV' = (Ok (), self2)) ∧
  (∀ e,
     PMCNondim_theta g self cp' T0' T3a' T4' f' f_st' LHV' = Err e →
     PMCNondim_run g self1 cp' T0' T3a' T4' f' f_st' LHV' = (Err e, self1)) ∧
  PMCNondim_run g self1 cp T0 T3a T4 f f_st LHV = (Ok (), self1).
Proof.
  intros Hrun1.
  assert (∀ cp T0 T3a T4 f f_st LHV,
            PMCNondim_theta g self1 cp T0 T3a T4 f f_st LHV =
            PMCNondim_theta g self cp T0 T3a T4 f f_st LHV) as Hsame.
  { intros. unfold PMCNondim_theta.
    rewrite (PMCNondim_equations_frame self1 self); [reflexivity|].
    intros a Ha.
    unfold PMCNondim_run in Hrun1.
    apply finish_Ok_inv in Hrun1 as (SOL & _ & Hstore).
    apply (store_keeps_parameters _ _ _ Hstore).
    intros Hin.
    repeat (apply elem_of_cons in Ha as [->|Ha]; [not_in_names Hin|]).
    by apply elem_of_nil in Ha. }
  assert (∀ self2 cp' T0' T3a' T4' f' f_st' LHV',
     PMCNondim_run g self cp' T0' T3a' T4' f' f_st' LHV' = (Ok (), self2) →
     PMCNondim_run g self1 cp' T0' T3a' T4' f' f_st' LHV' = (Ok (), self2))
    as Hok.
  { intros self2 ? ? ? ? ? ? ? Hrun2. unfold PMCNondim_run in *.
    rewrite Hsame.
    apply finish_Ok_inv in Hrun1 as (SOL1 & _ & Hstore1).
    apply finish_Ok_inv in Hrun2 as (SOL2 & -> & Hstore2).
    simpl. by eapply store_overwrites. }
  split; [|split].
  - intros self2. apply Hok.
  - intros e He. apply PMCNondim_run_Err. by rewrite Hsame.
  - by apply Hok.
Qed.

(** X6. Under the contract of the solver a run is all or nothing: whenever
    it raises, the exception arose before the assignments and the object
    is exactly as it was.  The contract is needed: with a solver that
    returns four values, the second tuple assignment raises [IndexError]
    after T3x, T3y and T3b were assigned. *)
Theorem X6_run_is_all_or_nothing_under_contract
    g (self self' : gmap string Qc) cp T0 T3a T4 f f_st LHV e :
  solver_contract (nsolve g) →
  (PMCNondim_run g self cp T0 T3a T4 f f_st LHV = (Err e, self') →
   self' = self ∧ PMCNondim_theta g self cp T0 T3a T4 f f_st LHV = Err e) ∧
  (PMC_run g self cp T0 T3a T4 f f_st LHV = (Err e, self') →
   self' = self ∧ PMC_theta g self cp T0 T3a T4 f f_st LHV = Err e) ∧
  PMCNondim_run (PMC_py four_values) (nd_attrs InterfaceStabilizedNondim)
    driver.cp driver.T2 driver.T3a driver.T4 driver.f_loc driver.f_st
    driver.LHV =
  (Err IndexError,
   <["T3b" := 1 * driver.T2]> (<["T3y" := 1 * driver.T2]> (
   <["T3x" := 1 * driver.T2]> (nd_attrs InterfaceStabilizedNondim)))).
Proof.
  intros Hc.
  assert (∀ eqs T3a SOL, call_nsolve g eqs T3a = Ok SOL → length SOL = 5%nat)
    as Hlen.
  { intros eqs ? SOL Hcall. unfold call_nsolve in Hcall.
    apply bind_Ok_inv in Hcall as (x0 & _ & Hsolve).
    by apply Hc in Hsolve as [Hl _]. }
  assert (∀ SOL, length SOL = 5%nat →
            finish (Ok (rescale SOL T0)) self = (Err e, self') → False)
    as Hstore.
  { intros SOL (a & b & c & d & e' & ->)%length_five. discriminate. }
  split; [|split].
  - unfold PMCNondim_run.
    destruct (PMCNondim_theta g self cp T0 T3a T4 f f_st LHV) as [SOL|e0] eqn:Hth.
    + rewrite mbind_Ok. intros Hrun. exfalso.
      apply (Hstore SOL); [|exact Hrun].
      unfold PMCNondim_theta in Hth.
      apply bind_Ok_inv in Hth as (eqs & _ & Hcall). by eapply Hlen.
    + by intros [= -> ->].
  - unfold PMC_run.
    destruct (PMC_theta g self cp T0 T3a T4 f f_st LHV) as [SOL|e0] eqn:Hth.
    + rewrite mbind_Ok. intros Hrun. exfalso.
      apply (Hstore SOL); [|exact Hrun].
      unfold PMC_theta in Hth.
      apply bind_Ok_inv in Hth as (eqs & _ & Hcall). by eapply Hlen.
    + by intros [= -> ->].
  - destruct driver_inputs_fine as (HT0 & Hcp & Hf & Hlean & HT3a).
    destruct (PMCNondim_equations_Ok InterfaceStabilizedNondim
                driver.cp driver.T2 driver.T3a driver.T4 driver.f_loc
                driver.f_st driver.LHV HT0 Hcp Hf (or_introl Hlean))
      as [_ [eqs Heqs]].
    unfold PMCNondim_run, PMCNondim_theta. rewrite Heqs, mbind_Ok.
    unfold call_nsolve, initial_guess.
    rewrite !(pydiv_Ok _ _ HT3a), !mbind_Ok. reflexivity.
Qed.

(** ** Where the runs fail of their own accord *)

Lemma Qcdiv_eq_0 (a b : Qc) : a / b = 0 → a = 0 ∨ b = 0.
Proof.
  intros H. destruct (decide (b = 0)) as [Hb|Hb]; [by right|left].
  unfold Qcdiv in H. apply Qcmult_integral in H as [H|H]; [exact H|].
  pose proof (Qcmult_inv_r b Hb) as H1. rewrite H, Qcmult_0_r in H1.
  discriminate H1.
Qed.

(** X8. The lean/rich adjustment of the heating value fails, with
    [ZeroDivisionError], when the mixture is not lean and [f_st] or [f] is
    zero, and, as long as its arguments and the quotient [f/f_st] stay in
    the range of the floats, in no other case.  Whenever it succeeds, the heat released per
    unit of air, [f * LHV_eff], is [min(f, f_st) * LHV]: fuel beyond the
    stoichiometric ratio adds nothing; and at [f = f_st] the rich branch
    gives [LHV] itself, so the adjustment has no jump there. *)
Theorem X8_heating_value_is_capped_at_stoichiometric f f_st LHV :
  (Forall in_float_range [f; f_st; LHV; f / f_st] →
   ∀ e, adjust_LHV f f_st LHV = Err e ↔
        e = ZeroDivisionError ∧ f_st ≤ f ∧ (f_st = 0 ∨ f = 0)) ∧
  (∀ LHV_eff, adjust_LHV f f_st LHV = Ok LHV_eff →
              f * LHV_eff = (if decide (f < f_st) then f else f_st) * LHV) ∧
  (f_st ≠ 0 → adjust_LHV f_st f_st LHV = Ok LHV).
Proof.
  split; [|split].
  - intros _ e. unfold adjust_LHV. split.
    + destruct (decide (f < f_st)) as [Hlt|Hge]; [discriminate|].
      apply Qcnot_lt_le in Hge.
      destruct (decide (f_st = 0)) as [->|Hst].
      { rewrite pydiv_zero. intros [= <-]. by auto. }
      rewrite (pydiv_Ok _ _ Hst), mbind_Ok.
      destruct (decide (f / f_st = 0)) as [Hz|Hnz].
      * rewrite Hz, pydiv_zero. intros [= <-].
        apply Qcdiv_eq_0 in Hz as [Hz|Hz]; [by auto | contradiction].
      * by rewrite (pydiv_Ok _ _ Hnz).
    + intros (-> & Hle & Hz).
      destruct (decide (f < f_st)) as [Hlt|_].
      { exfalso. exact (Qcle_not_lt _ _ Hle Hlt). }
      destruct (decide (f_st = 0)) as [->|Hst]; [by rewrite pydiv_zero|].
      destruct Hz as [Hz|Hz]; [contradiction|]. subst f.
      rewrite (pydiv_Ok _ _ Hst), mbind_Ok.
      unfold Qcdiv. by rewrite Qcmult_0_l, pydiv_zero.
  - intros LHV_eff. unfold adjust_LHV.
    destruct (decide (f < f_st)) as [Hlt|Hge]; [by intros [= <-]|].
    intros (r & [Hst ->]%pydiv_inv & [Hr ->]%pydiv_inv)%bind_Ok_inv.
    apply (Qcmult_neq_0 _ _ Hr) in Hst as Hprod.
    assert (f ≠ 0) as Hf.
    { intros ->. apply Hr. unfold Qcdiv. by rewrite Qcmult_0_l. }
    field. by split.
  - intros Hst. unfold adjust_LHV.
    destruct (decide (f_st < f_st)) as [Hlt|_].
    { exfalso. exact (Qclt_not_eq _ _ Hlt eq_refl). }
    rewrite (pydiv_Ok _ _ Hst), mbind_Ok.
    replace (f_st / f_st) with 1 by (by field).
    rewrite pydiv_Ok by discriminate. f_equal. by field.
Qed.

(** X7. On inputs whose computed floats stay in range, [PMCNondim.run] on
    an object built from the non-dimensional preset raises
    [ZeroDivisionError] of its own, before the solver is called and with
    the object unchanged, when [T0], [cp], [f+1] or [T3a] is zero or the
    mixture is not lean and [f_st] or [f] is zero; on every other such
    input it calls the solver once and its outcome is that of storing
    what the solver returns. *)
Theorem X7_PMCNondim_run_failure_domain g N cp T0 T3a T4 f f_st LHV :
  Forall in_float_range
    (PMCNondim_floats N cp T0 T3a T4 f f_st LHV ++ guess_floats T3a) →
  (T0 = 0 ∨ cp = 0 ∨ f + 1 = 0 ∨ T3a = 0 ∨
   (f_st ≤ f ∧ (f_st = 0 ∨ f = 0)) →
   PMCNondim_run g (nd_attrs N) cp T0 T3a T4 f f_st LHV =
     (Err ZeroDivisionError, nd_attrs N)) ∧
  (T0 ≠ 0 → cp ≠ 0 → f + 1 ≠ 0 → T3a ≠ 0 →
   f < f_st ∨ (f_st ≠ 0 ∧ f ≠ 0) →
   ∃ eqs,
     PMCNondim_equations (nd_attrs N) cp T0 T3a T4 f f_st LHV = Ok eqs ∧
     PMCNondim_run g (nd_attrs N) cp T0 T3a T4 f f_st LHV =
     finish (SOL ← nsolve g eqs unknowns
                     [(T3a + 1000) / T3a; (T3a + 1500) / T3a;
                      (T3a + 1000) / T3a; (T3a + 1000) / T3a;
                      (T3a + 1000) / T3a] (dec 1e-6);
             Ok (rescale SOL T0)) (nd_attrs N)).
Proof.
  intros _. split.
  - intros H. apply PMCNondim_run_Err. unfold PMCNondim_theta.
    destruct (decide (T0 ≠ 0 ∧ cp ≠ 0 ∧ f + 1 ≠ 0 ∧
                      (f < f_st ∨ (f_st ≠ 0 ∧ f ≠ 0)))) as [Hok|Hbad].
    + destruct Hok as (HT0 & Hcp & Hf & Hbr).
      destruct (PMCNondim_equations_Ok N cp T0 T3a T4 f f_st LHV
                  HT0 Hcp Hf Hbr) as [_ [eqs Heqs]].
      rewrite Heqs, mbind_Ok.
      destruct H as [?|[?|[?|[->|[Hle Hz]]]]]; try contradiction.
      * apply call_nsolve_T3a_zero.
      * exfalso. destruct Hbr as [Hlt|[Hst Hf0]].
        -- exact (Qcle_not_lt _ _ Hle Hlt).
        -- by destruct Hz.
    + by rewrite (PMCNondim_equations_fails N cp T0 T3a T4 f f_st LHV Hbad).
  - intros HT0 Hcp Hf HT3a Hbr.
    destruct (PMCNondim_equations_Ok N cp T0 T3a T4 f f_st LHV
                HT0 Hcp Hf Hbr) as [_ [eqs Heqs]].
    exists eqs. split; [exact Heqs|].
    unfold PMCNondim_run, PMCNondim_theta. rewrite Heqs, mbind_Ok.
    unfold call_nsolve, initial_guess.
    by rewrite !(pydiv_Ok _ _ HT3a), !mbind_Ok.
Qed.

(** ** What the stored temperatures satisfy *)

Lemma equations_defined iota delta mu th_3a th_4 Delta1 Delta2 cp T0 f LHV eqs :
  equations iota delta mu th_3a th_4 Delta1 Delta2 cp T0 f LHV = Ok eqs →
  f + 1 ≠ 0 ∧ cp * T0 ≠ 0.
Proof.
  unfold equations.
  intros (a & [Hf _]%pydiv_inv & (b & [Hc _]%pydiv_inv & _)%bind_Ok_inv)
    %bind_Ok_inv.
  by split.
Qed.

(** [PMCNondim_equations_inv] on an object built from the preset. *)
Lemma PMCNondim_equations_nd_inv N cp T0 T3a T4 f f_st LHV eqs :
  PMCNondim_equations (nd_attrs N) cp T0 T3a T4 f f_st LHV = Ok eqs →
  T0 ≠ 0 ∧
  equations (nd_iota N) (nd_delta N) (nd_mu N) (T3a / T0) (T4 / T0)
    (nd_DeltaT_PH N / T0) (nd_DeltaT_RC N / T0) cp T0 f
    (spec_LHV_eff f f_st LHV) = Ok eqs.
Proof.
  intros (HT0 & iota & delta & mu & PH & RC & Hi & Hd & Hm & HPH & HRC & Heqs)
    %PMCNondim_equations_inv.
  change (getattr (nd_attrs N) "iota") with (Ok (nd_iota N)) in Hi.
  change (getattr (nd_attrs N) "delta") with (Ok (nd_delta N)) in Hd.
  change (getattr (nd_attrs N) "mu") with (Ok (nd_mu N)) in Hm.
  change (getattr (nd_attrs N) "DeltaT_PH") with (Ok (nd_DeltaT_PH N)) in HPH.
  change (getattr (nd_attrs N) "DeltaT_RC") with (Ok (nd_DeltaT_RC N)) in HRC.
  injection Hi as <-. injection Hd as <-. injection Hm as <-.
  injection HPH as <-. injection HRC as <-. by split.
Qed.

Lemma abs_scaled (T0 r t v : Qc) :
  v = - (T0 * r) → Qc_abs r ≤ t → Qc_abs v ≤ Qc_abs T0 * t.
Proof.
  intros -> Hr. unfold Qc_abs in *.
  rewrite Qcabs.Qcabs_opp, Qcabs.Qcabs_Qcmult.
  apply Qcmult_le_mono_nonneg_l; [apply Qcabs.Qcabs_nonneg | exact Hr].
Qed.

Lemma abs_three (a b c t : Qc) :
  Qc_abs a ≤ t → Qc_abs b ≤ t → Qc_abs c ≤ t →
  Qc_abs (a - b - c) ≤ t + t + t.
Proof.
  intros Ha Hb Hc. unfold Qc_abs in *.
  replace (a - b - c) with (a + - b + - c) by ring.
  eapply Qcle_trans; [apply Qcabs.Qcabs_triangle|].
  apply Qcplus_le_compat; [|by rewrite Qcabs.Qcabs_opp].
  eapply Qcle_trans; [apply Qcabs.Qcabs_triangle|].
  apply Qcplus_le_compat; [exact Ha | by rewrite Qcabs.Qcabs_opp].
Qed.

(** A run that returned under the contract: the stored temperatures are
    [T0] times a vector at which the five formulas are within 1e-6. *)
Lemma returned_run_residuals g N cp T0 T3a T4 f f_st LHV self' :
  solver_contract (nsolve g) →
  PMCNondim_run g (nd_attrs N) cp T0 T3a T4 f f_st LHV = (Ok (), self') →
  ∃ x y b S1 S2,
    T0 ≠ 0 ∧ cp ≠ 0 ∧ f + 1 ≠ 0 ∧
    self' !! "T3x" = Some (x * T0) ∧ self' !! "T3y" = Some (y * T0) ∧
    self' !! "T3b" = Some (b * T0) ∧ self' !! "TS1" = Some (S1 * T0) ∧
    self' !! "TS2" = Some (S2 * T0) ∧
    Qc_abs (spec_f1 (nd_iota N) (nd_delta N) (nd_mu N) (T3a / T0) x S1 S2)
      ≤ dec 1e-6 ∧
    Qc_abs (spec_f2 x y f (spec_LHV_eff f f_st LHV) cp T0) ≤ dec 1e-6 ∧
    Qc_abs (spec_f3 (nd_iota N) (nd_delta N) (nd_mu N) (T4 / T0) y b S1 S2)
      ≤ dec 1e-6 ∧
    Qc_abs (spec_f4 x S1 (nd_DeltaT_PH N) T0) ≤ dec 1e-6 ∧
    Qc_abs (spec_f5 b S2 (nd_DeltaT_RC N) T0) ≤ dec 1e-6.
Proof.
  intros Hc Hrun. unfold PMCNondim_run in Hrun.
  apply finish_Ok_inv in Hrun as (SOL' & Hsol & Hstore).
  apply bind_Ok_inv in Hsol as (SOL & Hth & [= <-]).
  apply (PMCNondim_theta_contract _ _ _ _ _ _ _ _ _ _ Hc) in Hth as Hres.
  destruct Hres as (eqs & Heqs & Hres).
  unfold PMCNondim_theta in Hth. rewrite Heqs, mbind_Ok in Hth.
  unfold call_nsolve in Hth.
  apply bind_Ok_inv in Hth as (x0 & _ & Hsolve).
  apply Hc in Hsolve as [Hlen _].
  apply length_five in Hlen as (x & y & b & S1 & S2 & ->).
  apply PMCNondim_equations_nd_inv in Heqs as (HT0 & Heqs).
  apply equations_defined in Heqs as Hdef. destruct Hdef as [Hf Hcp].
  apply equations_inv in Heqs as (f1 & f2 & f3 & f4 & f5 & -> & Hev).
  destruct (Hev (assign unknowns [x; y; b; S1; S2]))
    as (E1 & E2 & E3 & E4 & E5).
  unfold residuals_within in Hres.
  apply Forall_cons in Hres as [R1 Hres]. apply Forall_cons in Hres as [R2 Hres].
  apply Forall_cons in Hres as [R3 Hres]. apply Forall_cons in Hres as [R4 Hres].
  apply Forall_cons in Hres as [R5 _].
  rewrite E1 in R1. rewrite E2 in R2. rewrite E3 in R3.
  rewrite E4 in R4. rewrite E5 in R5.
  simpl in Hstore. rewrite store_five in Hstore. injection Hstore as <-.
  exists x, y, b, S1, S2.
  split; [exact HT0|].
  split; [intros ->; apply Hcp; ring|].
  split; [exact Hf|].
  split; [by simplify_map_eq|]. split; [by simplify_map_eq|].
  split; [by simplify_map_eq|]. split; [by simplify_map_eq|].
  split; [by simplify_map_eq|].
  split; [exact R1|]. split; [exact R2|]. split; [exact R3|].
  split; [exact R4 | exact R5].
Qed.

(** X9. After a run that returned under the contract of the solver, the
    stored temperatures satisfy the three closure relations in kelvin, each
    to within [|T0| * 1e-6]: TS1 - T3x is the preheat offset, T3b - TS2 is
    the recombination offset, and the jump T3y - T3x is
    [f/(f+1) * LHV_eff / cp], which does not depend on [T0]. *)
Theorem X9_stored_temperatures_satisfy_closures
    g N cp T0 T3a T4 f f_st LHV self' :
  solver_contract (nsolve g) →
  PMCNondim_run g (nd_attrs N) cp T0 T3a T4 f f_st LHV = (Ok (), self') →
  ∃ T3x T3y T3b TS1 TS2,
    self' !! "T3x" = Some T3x ∧ self' !! "T3y" = Some T3y ∧
    self' !! "T3b" = Some T3b ∧ self' !! "TS1" = Some TS1 ∧
    self' !! "TS2" = Some TS2 ∧
    Qc_abs (TS1 - T3x - nd_DeltaT_PH N) ≤ Qc_abs T0 * dec 1e-6 ∧
    Qc_abs (T3b - TS2 - nd_DeltaT_RC N) ≤ Qc_abs T0 * dec 1e-6 ∧
    Qc_abs (T3y - T3x - f / (f + 1) * (spec_LHV_eff f f_st LHV / cp))
      ≤ Qc_abs T0 * dec 1e-6.
Proof.
  intros Hc Hrun.
  destruct (returned_run_residuals g N cp T0 T3a T4 f f_st LHV self' Hc Hrun)
    as (x & y & b & S1 & S2 & HT0 & Hcp & Hf & L1 & L2 & L3 & L4 & L5
        & R1 & R2 & R3 & R4 & R5).
  exists (x * T0), (y * T0), (b * T0), (S1 * T0), (S2 * T0).
  do 5 (split; [assumption|]).
  split; [|split].
  - eapply abs_scaled; [|exact R4]. unfold spec_f4. by field.
  - eapply abs_scaled; [|exact R5]. unfold spec_f5. by field.
  - eapply abs_scaled; [|exact R2]. unfold spec_f2. field. by repeat split.
Qed.

(** X10. When [delta * mu = 0] (no radiative exchange with the gas, as in
    the presets), a run that returned under the contract has stored an
    exit temperature T3b within [|T0| * 3e-6] of
    [T3a + f/(f+1) * LHV_eff / cp]: the gas leaves at the inlet
    temperature plus the heat release, whatever [iota], [delta] and the
    offsets are. *)
Theorem X10_exit_temperature_is_inlet_plus_heat_release
    g N cp T0 T3a T4 f f_st LHV self' :
  solver_contract (nsolve g) →
  nd_delta N * nd_mu N = 0 →
  PMCNondim_run g (nd_attrs N) cp T0 T3a T4 f f_st LHV = (Ok (), self') →
  ∃ T3b,
    self' !! "T3b" = Some T3b ∧
    Qc_abs (T3b - (T3a + f / (f + 1) * (spec_LHV_eff f f_st LHV / cp)))
      ≤ Qc_abs T0 * dec 3e-6.
Proof.
  intros Hc Hdm Hrun.
  destruct (returned_run_residuals g N cp T0 T3a T4 f f_st LHV self' Hc Hrun)
    as (x & y & b & S1 & S2 & HT0 & Hcp & Hf & L1 & L2 & L3 & L4 & L5
        & R1 & R2 & R3 & R4 & R5).
  exists (b * T0). split; [assumption|].
  replace (dec 3e-6) with (dec 1e-6 + dec 1e-6 + dec 1e-6)
    by (apply Qc_this_inj; reflexivity).
  apply (abs_scaled T0
    (spec_f1 (nd_iota N) (nd_delta N) (nd_mu N) (T3a / T0) x S1 S2
     - spec_f3 (nd_iota N) (nd_delta N) (nd_mu N) (T4 / T0) y b S1 S2
     - - spec_f2 x y f (spec_LHV_eff f f_st LHV) cp T0)).
  - unfold spec_f1, spec_f2, spec_f3.
    replace (nd_delta N * nd_mu N * (S1 ^ 4 - (T3a / T0) ^ 4))
      with ((nd_delta N * nd_mu N) * (S1 ^ 4 - (T3a / T0) ^ 4)) by ring.
    replace (nd_delta N * nd_mu N * (S2 ^ 4 - (T4 / T0) ^ 4))
      with ((nd_delta N * nd_mu N) * (S2 ^ 4 - (T4 / T0) ^ 4)) by ring.
    rewrite Hdm. field. by repeat split.
  - apply abs_three; [exact R1 | exact R3 |].
    unfold Qc_abs in *. by rewrite Qcabs.Qcabs_opp.
Qed.

(** ** The system without radiation *)

Lemma list5_eq {A} (a b c d e a' b' c' d' e' : A) :
  a = a' → b = b' → c = c' → d = d' → e = e' →
  [a; b; c; d; e] = [a'; b'; c'; d'; e'].
Proof. by intros -> -> -> -> ->. Qed.

(** X11. With [delta = 0] and [iota] different from -1, the five
    residuals built by [PMCNondim.run] vanish together at exactly one
    vector, the closed-form solution of the remaining linear system; it
    does not depend on [mu] nor on [T4]. *)
Theorem X11_zero_radiation_system_has_one_root
    N cp T0 T3a T4 f f_st LHV eqs x y b S1 S2 :
  nd_delta N = 0 → 1 + nd_iota N ≠ 0 →
  PMCNondim_equations (nd_attrs N) cp T0 T3a T4 f f_st LHV = Ok eqs →
  Forall (λ e, eval (assign unknowns [x; y; b; S1; S2]) e = 0) eqs ↔
  [x; y; b; S1; S2] =
  zero_radiation_solution (nd_iota N) (T3a / T0)
    (f / (f + 1) * (spec_LHV_eff f f_st LHV / (cp * T0)))
    (nd_DeltaT_PH N / T0) (nd_DeltaT_RC N / T0).
Proof.
  intros Hdelta Hiota Heqs.
  apply PMCNondim_equations_nd_inv in Heqs as (HT0 & Heqs).
  apply equations_inv in Heqs as (f1 & f2 & f3 & f4 & f5 & -> & Hev).
  destruct (Hev (assign unknowns [x; y; b; S1; S2]))
    as (E1 & E2 & E3 & E4 & E5).
  change (assign unknowns [x; y; b; S1; S2] "THETA_3x") with x in *.
  change (assign unknowns [x; y; b; S1; S2] "THETA_3y") with y in *.
  change (assign unknowns [x; y; b; S1; S2] "THETA_3b") with b in *.
  change (assign unknowns [x; y; b; S1; S2] "THETA_S1") with S1 in *.
  change (assign unknowns [x; y; b; S1; S2] "THETA_S2") with S2 in *.
  set (c := f / (f + 1) * (spec_LHV_eff f f_st LHV / (cp * T0))) in *.
  unfold spec_f1, spec_f2, spec_f3, spec_f4, spec_f5 in *.
  rewrite Hdelta in E1, E3. fold c in E2.
  unfold zero_radiation_solution. split.
  - intros Hall.
    apply Forall_cons in Hall as [R1 Hall]. apply Forall_cons in Hall as [R2 Hall].
    apply Forall_cons in Hall as [R3 Hall]. apply Forall_cons in Hall as [R4 Hall].
    apply Forall_cons in Hall as [R5 _].
    rewrite E1 in R1. rewrite E2 in R2. rewrite E3 in R3.
    rewrite E4 in R4. rewrite E5 in R5.
    set (r1 := nd_iota N * ((1 + 0 * ((S1 + S2) / 2) ^ 3) * (S2 - S1)
                 - 0 * nd_mu N * (S1 ^ 4 - (T3a / T0) ^ 4))
               - (x - T3a / T0)) in *.
    set (r2 := c - (y - x)) in *.
    set (r3 := nd_iota N * ((1 + 0 * ((S1 + S2) / 2) ^ 3) * (S2 - S1)
                 + 0 * nd_mu N * (S2 ^ 4 - (T4 / T0) ^ 4)) - (y - b)) in *.
    set (r4 := nd_DeltaT_PH N / T0 - (S1 - x)) in *.
    set (r5 := nd_DeltaT_RC N / T0 - (b - S2)) in *.
    assert (b = T3a / T0 + c + (r3 - r1 - r2)) as Hb
      by (unfold r1, r2, r3; field; assumption).
    assert (S2 = T3a / T0 + c - nd_DeltaT_RC N / T0 + (r3 - r1 - r2 + r5))
      as HS2 by (unfold r1, r2, r3, r5; field; assumption).
    assert (S1 = (T3a / T0 + nd_DeltaT_PH N / T0
                  + nd_iota N * (T3a / T0 + c - nd_DeltaT_RC N / T0))
                 / (1 + nd_iota N)
                 + (nd_iota N * (r3 - r1 - r2 + r5) - r4 - r1)
                   / (1 + nd_iota N)) as HS1
      by (unfold r1, r2, r3, r4, r5; field; by split).
    assert (x = S1 - nd_DeltaT_PH N / T0 + r4) as Hx
      by (unfold r4; field; assumption).
    assert (y = x + c - r2) as Hy by (unfold r2; ring).
    rewrite R1, R2, R3, R4, R5 in *.
    assert (S1 = (T3a / T0 + nd_DeltaT_PH N / T0
                  + nd_iota N * (T3a / T0 + c - nd_DeltaT_RC N / T0))
                 / (1 + nd_iota N)) as HS1'.
    { rewrite HS1 at 1. field. by repeat split. }
    assert (x = S1 - nd_DeltaT_PH N / T0) as Hx' by (rewrite Hx at 1; ring).
    rewrite Hy, Hx', Hb, HS2, <- HS1'.
    apply list5_eq; ring.
  - intros [= -> -> -> -> ->].
    apply Forall_cons; split; [rewrite E1; field; repeat split; assumption|].
    apply Forall_cons; split; [rewrite E2; field; repeat split; assumption|].
    apply Forall_cons; split; [rewrite E3; field; repeat split; assumption|].
    apply Forall_cons; split; [rewrite E4; field; repeat split; assumption|].
    apply Forall_cons; split; [rewrite E5; field; repeat split; assumption|].
    constructor.
Qed.

(** ** The dimensional run against the non-dimensional one *)

Lemma finish_same_results r (self1 self2 : gmap string Qc) :
  (∀ k, k ∈ ["T3x"; "T3y"; "T3b"; "TS1"; "TS2"] → self1 !! k = self2 !! k) →
  fst (finish r self1) = fst (finish r self2) ∧
  ∀ k, k ∈ ["T3x"; "T3y"; "T3b"; "TS1"; "TS2"] →
       snd (finish r self1) !! k = snd (finish r self2) !! k.
Proof.
  intros H. destruct r as [SOL|e]; [|by split].
  destruct SOL as [|a [|b [|c [|d [|e rest]]]]];
    (split; [reflexivity|]); intros k Hk; simpl;
    try (by apply H);
    rewrite ?lookup_insert; repeat case_decide; try reflexivity; by apply H.
Qed.

(** X12. Once lines 32-38 of [PMC.run] have produced the three groups, the
    rest of [PMC.run] is [PMCNondim.run] on an object holding those groups
    and the same offsets: the same equations go to the solver, the two
    calls end alike (return, or raise the same exception), and the five
    result attributes of the two objects agree. *)
Theorem X12_dimensional_run_is_nondimensional_run_on_its_groups
    g P cp T0 T3a T4 f f_st LHV iota delta mu :
  PMC_groups g (attrs P) cp T0 = Ok (iota, delta, mu) →
  PMC_equations g (attrs P) cp T0 T3a T4 f f_st LHV =
    PMCNondim_equations (nd_attrs (reduced P iota delta mu))
      cp T0 T3a T4 f f_st LHV ∧
  fst (PMC_run g (attrs P) cp T0 T3a T4 f f_st LHV) =
    fst (PMCNondim_run g (nd_attrs (reduced P iota delta mu))
           cp T0 T3a T4 f f_st LHV) ∧
  ∀ k, k ∈ ["T3x"; "T3y"; "T3b"; "TS1"; "TS2"] →
       snd (PMC_run g (attrs P) cp T0 T3a T4 f f_st LHV) !! k =
       snd (PMCNondim_run g (nd_attrs (reduced P iota delta mu))
              cp T0 T3a T4 f f_st LHV) !! k.
Proof.
  intros Hgr.
  split; [by apply PMC_equations_reduced|].
  unfold PMC_run, PMCNondim_run.
  rewrite (PMC_theta_reduced _ _ _ _ _ _ _ _ _ _ _ _ Hgr).
  apply finish_same_results.
  intros k Hk.
  repeat (apply elem_of_cons in Hk as [->|Hk]; [reflexivity|]).
  by apply elem_of_nil in Hk.
Qed.

(** ** How the groups depend on the inputs *)





(** ** The returned vector without radiation *)

Lemma abs_plus (a b s t : Qc) :
  Qc_abs a ≤ s → Qc_abs b ≤ t → Qc_abs (a + b) ≤ s + t.
Proof.
  intros Ha Hb. unfold Qc_abs in *.
  eapply Qcle_trans; [apply Qcabs.Qcabs_triangle|].
  by apply Qcplus_le_compat.
Qed.

Lemma abs_minus (a b s t : Qc) :
  Qc_abs a ≤ s → Qc_abs b ≤ t → Qc_abs (a - b) ≤ s + t.
Proof.
  intros Ha Hb. replace (a - b) with (a + - b) by ring.
  apply abs_plus; [exact Ha|]. unfold Qc_abs in *.
  by rewrite Qcabs.Qcabs_opp.
Qed.

(** A vector returned under the contract, and the five formulas at it. *)
Lemma returned_theta_residuals g N cp T0 T3a T4 f f_st LHV θ :
  solver_contract (nsolve g) →
  PMCNondim_theta g (nd_attrs N) cp T0 T3a T4 f f_st LHV = Ok θ →
  ∃ x y b S1 S2,
    θ = [x; y; b; S1; S2] ∧ T0 ≠ 0 ∧
    Qc_abs (spec_f1 (nd_iota N) (nd_delta N) (nd_mu N) (T3a / T0) x S1 S2)
      ≤ dec 1e-6 ∧
    Qc_abs (spec_f2 x y f (spec_LHV_eff f f_st LHV) cp T0) ≤ dec 1e-6 ∧
    Qc_abs (spec_f3 (nd_iota N) (nd_delta N) (nd_mu N) (T4 / T0) y b S1 S2)
      ≤ dec 1e-6 ∧
    Qc_abs (spec_f4 x S1 (nd_DeltaT_PH N) T0) ≤ dec 1e-6 ∧
    Qc_abs (spec_f5 b S2 (nd_DeltaT_RC N) T0) ≤ dec 1e-6.
Proof.
  intros Hc Hth.
  apply (PMCNondim_theta_contract _ _ _ _ _ _ _ _ _ _ Hc) in Hth as Hres.
  destruct Hres as (eqs & Heqs & Hres).
  unfold PMCNondim_theta in Hth. rewrite Heqs, mbind_Ok in Hth.
  unfold call_nsolve in Hth.
  apply bind_Ok_inv in Hth as (x0 & _ & Hsolve).
  apply Hc in Hsolve as [Hlen _].
  apply length_five in Hlen as (x & y & b & S1 & S2 & ->).
  apply PMCNondim_equations_nd_inv in Heqs as (HT0 & Heqs).
  apply equations_inv in Heqs as (f1 & f2 & f3 & f4 & f5 & -> & Hev).
  destruct (Hev (assign unknowns [x; y; b; S1; S2]))
    as (E1 & E2 & E3 & E4 & E5).
  unfold residuals_within in Hres.
  apply Forall_cons in Hres as [R1 Hres]. apply Forall_cons in Hres as [R2 Hres].
  apply Forall_cons in Hres as [R3 Hres]. apply Forall_cons in Hres as [R4 Hres].
  apply Forall_cons in Hres as [R5 _].
  rewrite E1 in R1. rewrite E2 in R2. rewrite E3 in R3.
  rewrite E4 in R4. rewrite E5 in R5.
  exists x, y, b, S1, S2. by repeat split.
Qed.

(** X14. With [delta = 0] and [iota] not negative, any vector the solver
    returns under its contract lies, entry by entry, within 6e-6 of the
    closed-form solution of the linear system: within 5e-6 for THETA_3x,
    6e-6 for THETA_3y, 3e-6 for THETA_3b and 4e-6 for the two solid
    temperatures. *)
Theorem X14_zero_radiation_output_is_near_closed_form
    g N cp T0 T3a T4 f f_st LHV θ :
  solver_contract (nsolve g) →
  nd_delta N = 0 → 0 ≤ nd_iota N →
  PMCNondim_theta g (nd_attrs N) cp T0 T3a T4 f f_st LHV = Ok θ →
  ∃ x y b S1 S2 x' y' b' S1' S2',
    θ = [x; y; b; S1; S2] ∧
    zero_radiation_solution (nd_iota N) (T3a / T0)
      (f / (f + 1) * (spec_LHV_eff f f_st LHV / (cp * T0)))
      (nd_DeltaT_PH N / T0) (nd_DeltaT_RC N / T0) = [x'; y'; b'; S1'; S2'] ∧
    Qc_abs (x - x') ≤ dec 5e-6 ∧ Qc_abs (y - y') ≤ dec 6e-6 ∧
    Qc_abs (b - b') ≤ dec 3e-6 ∧ Qc_abs (S1 - S1') ≤ dec 4e-6 ∧
    Qc_abs (S2 - S2') ≤ dec 4e-6.
Proof.
  intros Hc Hdelta Hiota Hth.
  destruct (returned_theta_residuals g N cp T0 T3a T4 f f_st LHV θ Hc Hth)
    as (x & y & b & S1 & S2 & -> & HT0 & R1 & R2 & R3 & R4 & R5).
  set (c := f / (f + 1) * (spec_LHV_eff f f_st LHV / (cp * T0))) in *.
  set (t := dec 1e-6) in *.
  rewrite Hdelta in R1, R3.
  set (r1 := spec_f1 (nd_iota N) 0 (nd_mu N) (T3a / T0) x S1 S2) in *.
  set (r2 := spec_f2 x y f (spec_LHV_eff f f_st LHV) cp T0) in *.
  set (r3 := spec_f3 (nd_iota N) 0 (nd_mu N) (T4 / T0) y b S1 S2) in *.
  set (r4 := spec_f4 x S1 (nd_DeltaT_PH N) T0) in *.
  set (r5 := spec_f5 b S2 (nd_DeltaT_RC N) T0) in *.
  assert (0 < 1 + nd_iota N) as Hpos.
  { apply Qclt_le_trans with (1 + 0); [reflexivity|].
    by apply Qcplus_le_compat. }
  assert (1 + nd_iota N ≠ 0) as Hne.
  { intros H0. rewrite H0 in Hpos. by apply (Qclt_not_eq _ _ Hpos). }
  set (θS2 := T3a / T0 + c - nd_DeltaT_RC N / T0).
  set (θS1 := (T3a / T0 + nd_DeltaT_PH N / T0 + nd_iota N * θS2)
              / (1 + nd_iota N)).
  (* the five differences in terms of the residuals *)
  assert (b - (T3a / T0 + c) = r3 - r1 - r2) as Ib.
  { unfold r1, r2, r3, spec_f1, spec_f2, spec_f3. fold c. field. exact HT0. }
  assert (S2 - θS2 = r3 - r1 - r2 + r5) as IS2.
  { unfold θS2, r1, r2, r3, r5, spec_f1, spec_f2, spec_f3, spec_f5. fold c.
    field. exact HT0. }
  assert ((1 + nd_iota N) * (S1 - θS1) = nd_iota N * (S2 - θS2) - r4 - r1)
    as IS1.
  { unfold θS1, θS2, r1, r4, spec_f1, spec_f4. field. by split. }
  assert (x - (θS1 - nd_DeltaT_PH N / T0) = (S1 - θS1) + r4) as Ix.
  { unfold r4, spec_f4. field. exact HT0. }
  assert (y - (θS1 - nd_DeltaT_PH N / T0 + c)
          = (x - (θS1 - nd_DeltaT_PH N / T0)) - r2) as Iy.
  { unfold r2, spec_f2. fold c. ring. }
  (* the bounds *)
  assert (Qc_abs (b - (T3a / T0 + c)) ≤ t + t + t) as Bb.
  { rewrite Ib. by repeat apply abs_minus. }
  assert (Qc_abs (S2 - θS2) ≤ t + t + t + t) as BS2.
  { rewrite IS2. apply abs_plus; [|exact R5]. by repeat apply abs_minus. }
  assert (Qc_abs (S1 - θS1) ≤ t + t + t + t) as BS1.
  { apply (Qcmult_le_mono_pos_l _ _ _ Hpos).
    replace ((1 + nd_iota N) * Qc_abs (S1 - θS1))
      with (Qc_abs ((1 + nd_iota N) * (S1 - θS1))).
    2: { unfold Qc_abs. rewrite Qcabs.Qcabs_Qcmult.
         by rewrite (Qcabs.Qcabs_pos (1 + nd_iota N))
           by (by apply Qclt_le_weak). }
    rewrite IS1.
    apply Qcle_trans with (nd_iota N * (t + t + t + t) + t + t).
    - repeat apply abs_minus; try assumption.
      unfold Qc_abs. rewrite Qcabs.Qcabs_Qcmult, (Qcabs.Qcabs_pos _ Hiota).
      by apply Qcmult_le_mono_nonneg_l.
    - replace ((1 + nd_iota N) * (t + t + t + t))
        with (nd_iota N * (t + t + t + t) + (t + t + t + t)) by ring.
      rewrite <- Qcplus_assoc. apply Qcplus_le_compat; [apply Qcle_refl|].
      by vm_compute. }
  assert (Qc_abs (x - (θS1 - nd_DeltaT_PH N / T0)) ≤ t + t + t + t + t) as Bx.
  { rewrite Ix. by apply abs_plus. }
  assert (Qc_abs (y - (θS1 - nd_DeltaT_PH N / T0 + c))
          ≤ t + t + t + t + t + t) as By.
  { rewrite Iy. by apply abs_minus. }
  exists x, y, b, S1, S2.
  exists (θS1 - nd_DeltaT_PH N / T0), (θS1 - nd_DeltaT_PH N / T0 + c),
         (T3a / T0 + c), θS1, θS2.
  split; [reflexivity|]. split; [reflexivity|].
  split; [eapply Qcle_trans; [exact Bx | by vm_compute]|].
  split; [eapply Qcle_trans; [exact By | by vm_compute]|].
  split; [eapply Qcle_trans; [exact Bb | by vm_compute]|].
  split; [eapply Qcle_trans; [exact BS1 | by vm_compute]|].
  eapply Qcle_trans; [exact BS2 | by vm_compute].
Qed.

(** ** The shape of the system *)

(** X15. The system handed to the solver is square and closed: it has
    five expressions for the five unknowns, and their values depend on
    nothing but the values given to THETA_3x, THETA_3y, THETA_3b,
    THETA_S1 and THETA_S2; this holds for both entry points. *)
Theorem X15_system_is_square_and_closed
    g (self : gmap string Qc) cp T0 T3a T4 f f_st LHV eqs :
  PMCNondim_equations self cp T0 T3a T4 f f_st LHV = Ok eqs ∨
  PMC_equations g self cp T0 T3a T4 f f_st LHV = Ok eqs →
  length eqs = length unknowns ∧
  ∀ ρ ρ' : string → Qc,
    (∀ s, s ∈ unknowns → ρ s = ρ' s) →
    map (eval ρ) eqs = map (eval ρ') eqs.
Proof.
  intros H.
  assert (∃ iota delta mu th_3a th_4 Delta1 Delta2 LHV',
            equations iota delta mu th_3a th_4 Delta1 Delta2 cp T0 f LHV'
            = Ok eqs) as Heqs.
  { destruct H as [H|H].
    - apply PMCNondim_equations_inv in H
        as (_ & iota & delta & mu & PH & RC & _ & _ & _ & _ & _ & H).
      eauto 10.
    - apply PMC_equations_inv in H
        as (_ & iota & delta & mu & PH & RC & _ & _ & _ & H).
      eauto 10. }
  destruct Heqs as (iota & delta & mu & th_3a & th_4 & D1 & D2 & LHV' & Heqs).
  apply equations_inv in Heqs as (f1 & f2 & f3 & f4 & f5 & -> & Hev).
  split; [reflexivity|].
  intros ρ ρ' Hρ.
  destruct (Hev ρ) as (E1 & E2 & E3 & E4 & E5).
  destruct (Hev ρ') as (E1' & E2' & E3' & E4' & E5').
  simpl. rewrite E1, E2, E3, E4, E5, E1', E2', E3', E4', E5'.
  rewrite !(Hρ "THETA_3x"), !(Hρ "THETA_3y"), !(Hρ "THETA_3b"),
    !(Hρ "THETA_S1"), !(Hρ "THETA_S2") by in_names.
  reflexivity.
Qed.

(** X16. The turbine inlet temperature [T4] enters the system only
    through the radiative term of residual 3: when [delta * mu = 0], as in
    the presets, two runs that differ in [T4] alone build systems with the
    same values everywhere, so [T4] has no influence on what the solver
    is asked. *)
Theorem X16_T4_is_irrelevant_without_gas_radiation
    N cp T0 T3a T4 T4' f f_st LHV eqs eqs' :
  nd_delta N * nd_mu N = 0 →
  PMCNondim_equations (nd_attrs N) cp T0 T3a T4 f f_st LHV = Ok eqs →
  PMCNondim_equations (nd_attrs N) cp T0 T3a T4' f f_st LHV = Ok eqs' →
  ∀ ρ : string → Qc, map (eval ρ) eqs = map (eval ρ) eqs'.
Proof.
  intros Hdm (HT0 & Heqs)%PMCNondim_equations_nd_inv
    (_ & Heqs')%PMCNondim_equations_nd_inv ρ.
  apply equations_inv in Heqs as (f1 & f2 & f3 & f4 & f5 & -> & Hev).
  apply equations_inv in Heqs' as (f1' & f2' & f3' & f4' & f5' & -> & Hev').
  destruct (Hev ρ) as (E1 & E2 & E3 & E4 & E5).
  destruct (Hev' ρ) as (E1' & E2' & E3' & E4' & E5').
  simpl. rewrite E1, E2, E3, E4, E5, E1', E2', E3', E4', E5'.
  unfold spec_f3. rewrite Hdm, !Qcmult_0_l. reflexivity.
Qed.

(** ** The further properties at concrete inputs *)

Lemma is_Ok_show (r : result (list Qc)) : is_Some (show r) → is_Ok r.
Proof. destruct r as [l|e]; [by exists l | by intros [? [=]]]. Qed.

Lemma singular_run_raises :
  PMCNondim_run (PMC_py Newton.solve) (nd_attrs nd_singular)
    driver.cp driver.T2 driver.T3a driver.T4 driver.f_loc driver.f_st
    driver.LHV = (Err ZeroDivisionError, nd_attrs nd_singular).
Proof. apply PMCNondim_run_Err. vm_compute. reflexivity. Qed.

Lemma no_radiation_solve_returns :
  is_Ok (PMCNondim_theta (PMC_py Newton.solve) (nd_attrs nd_no_radiation)
           driver.cp driver.T2 driver.T3a driver.T4 driver.f_loc
           driver.f_st driver.LHV).
Proof. apply is_Ok_show. vm_compute. by eexists. Qed.

Lemma driver_groups_exist :
  ∃ iota delta mu,
    PMC_groups (with_ct Newton.solve sigma_SB) (attrs driver.myProps)
      driver.cp driver.T2 = Ok (iota, delta, mu).
Proof.
  eexists _, _, _.
  apply (PMC_groups_bound_ct Newton.solve sigma_SB driver.myProps);
    try discriminate; qc_neq.
Qed.

Lemma X1_witness :
  ∃ self,
    PMC_init preset_with_note = Ok self ∧
    self !! "note" = None ∧ self !! "voidFrac" = Some (dec 0.805).
Proof.
  assert (∀ a, a ∈ ["lambda_eff"; "voidFrac"; "massFlux"; "L"; "dp_upstr";
                    "dp_dwnstr"; "emissivity"; "DeltaT_PH"; "DeltaT_RC"] →
               is_Some (preset_with_note !! a)) as Hall.
  { intros a Ha.
    repeat (apply elem_of_cons in Ha as [->|Ha]; [by eexists|]).
    by apply elem_of_nil in Ha. }
  destruct (proj1 (X1_constructors_copy_exactly_their_attributes
                     preset_with_note) Hall) as (self & Hinit & Hself).
  exists self. split; [exact Hinit|].
  split; [exact (Hself "note") | exact (Hself "voidFrac")].
Defined.

Lemma X2_witness :
  PMCNondim_init (attrs InterfaceStabilized) = Err (AttributeError "iota").
Proof.
  refine (proj1 (proj2 (X2_constructors_fail_at_first_missing_attribute
            (attrs InterfaceStabilized) [] "iota"
            ["delta"; "mu"; "DeltaT_PH"; "DeltaT_RC"] _ eq_refl)) eq_refl).
  intros b Hb. by apply elem_of_nil in Hb.
Defined.

Lemma X3_witness :
  PMCNondim_theta (PMC_py Newton.solve) used_object
    driver.cp driver.T2 driver.T3a driver.T4 driver.f_loc driver.f_st
    driver.LHV =
  PMCNondim_theta (PMC_py Newton.solve) (nd_attrs InterfaceStabilizedNondim)
    driver.cp driver.T2 driver.T3a driver.T4 driver.f_loc driver.f_st
    driver.LHV.
Proof.
  apply (proj1 (X3_run_reads_only_its_parameters (PMC_py Newton.solve)
                  used_object (nd_attrs InterfaceStabilizedNondim)
                  driver.cp driver.T2 driver.T3a driver.T4 driver.f_loc
                  driver.f_st driver.LHV)).
  intros a Ha.
  repeat (apply elem_of_cons in Ha as [->|Ha]; [reflexivity|]).
  by apply elem_of_nil in Ha.
Defined.

Lemma X4_witness :
  ∃ (self' : gmap string Qc) a b c d e rest,
    PMCNondim_theta (PMC_py Newton.solve)
      (nd_attrs InterfaceStabilizedNondim)
      driver.cp driver.T2 driver.T3a driver.T4 driver.f_loc driver.f_st
      driver.LHV = Ok (a :: b :: c :: d :: e :: rest) ∧
    self' !! "T3x" = Some (a * driver.T2) ∧
    self' !! "TS2" = Some (e * driver.T2) ∧
    self' !! "iota" = Some (dec 0.05).
Proof.
  destruct PMCNondim_run_completes as [self' Hrun].
  destruct (proj1 (X4_successful_run_stores_rescaled_solution
                     (PMC_py Newton.solve)
                     (nd_attrs InterfaceStabilizedNondim) self'
                     driver.cp driver.T2 driver.T3a driver.T4 driver.f_loc
                     driver.f_st driver.LHV) Hrun)
    as (a & b & c & d & e & rest & Hth & Hx & _ & _ & _ & H2 & Hkeep).
  exists self', a, b, c, d, e, rest.
  split; [exact Hth|]. split; [exact Hx|]. split; [exact H2|].
  rewrite Hkeep; [reflexivity|]. intros Hin. not_in_names Hin.
Defined.

Lemma X5_witness :
  ∃ self1,
    PMCNondim_run (PMC_py Newton.solve) (nd_attrs InterfaceStabilizedNondim)
      driver.cp driver.T2 driver.T3a driver.T4 driver.f_loc driver.f_st
      driver.LHV = (Ok (), self1) ∧
    PMCNondim_run (PMC_py Newton.solve) self1
      driver.cp driver.T2 driver.T3a driver.T4 driver.f_loc driver.f_st
      driver.LHV = (Ok (), self1).
Proof.
  destruct PMCNondim_run_completes as [self1 Hrun].
  exists self1. split; [exact Hrun|].
  exact (proj2 (proj2 (X5_runs_do_not_depend_on_earlier_results
           (PMC_py Newton.solve) (nd_attrs InterfaceStabilizedNondim) self1
           driver.cp driver.T2 driver.T3a driver.T4 driver.f_loc
           driver.f_st driver.LHV
           driver.cp driver.T2 driver.T3a driver.T4 driver.f_loc
           driver.f_st driver.LHV Hrun))).
Defined.

Lemma X6_witness :
  PMCNondim_theta (PMC_py Newton.solve) (nd_attrs nd_singular)
    driver.cp driver.T2 driver.T3a driver.T4 driver.f_loc driver.f_st
    driver.LHV = Err ZeroDivisionError.
Proof.
  exact (proj2 (proj1 (X6_run_is_all_or_nothing_under_contract
           (PMC_py Newton.solve) (nd_attrs nd_singular)
           (nd_attrs nd_singular)
           driver.cp driver.T2 driver.T3a driver.T4 driver.f_loc
           driver.f_st driver.LHV ZeroDivisionError Newton_solve_contract)
           singular_run_raises)).
Defined.

Lemma zero_cp_floats_in_range :
  Forall in_float_range
    (PMCNondim_floats InterfaceStabilizedNondim 0 driver.T2
       driver.T3a driver.T4 driver.f_loc driver.f_st driver.LHV
     ++ guess_floats driver.T3a).
Proof. float_range. Qed.

Lemma X7_witness :
  PMCNondim_run (PMC_py Newton.solve) (nd_attrs InterfaceStabilizedNondim)
    0 driver.T2 driver.T3a driver.T4 driver.f_loc driver.f_st driver.LHV =
    (Err ZeroDivisionError, nd_attrs InterfaceStabilizedNondim) ∧
  ∃ eqs,
    PMCNondim_equations (nd_attrs InterfaceStabilizedNondim)
      driver.cp driver.T2 driver.T3a driver.T4 driver.f_loc driver.f_st
      driver.LHV = Ok eqs.
Proof.
  split.
  - exact (proj1 (X7_PMCNondim_run_failure_domain (PMC_py Newton.solve)
             InterfaceStabilizedNondim 0 driver.T2 driver.T3a driver.T4
             driver.f_loc driver.f_st driver.LHV zero_cp_floats_in_range)
             (or_intror (or_introl eq_refl))).
  - destruct driver_inputs_fine as (HT0 & Hcp & Hf & Hlean & HT3a).
    destruct (proj2 (X7_PMCNondim_run_failure_domain (PMC_py Newton.solve)
                InterfaceStabilizedNondim driver.cp driver.T2 driver.T3a
                driver.T4 driver.f_loc driver.f_st driver.LHV
                driver_floats_in_range)
                HT0 Hcp Hf HT3a (or_introl Hlean)) as (eqs & Heqs & _).
    by exists eqs.
Defined.

Lemma X8_witness :
  adjust_LHV driver.f_st driver.f_st driver.LHV = Ok driver.LHV ∧
  adjust_LHV 0 0 driver.LHV = Err ZeroDivisionError ∧
  ∀ LHV_eff,
    adjust_LHV (2 * driver.f_st) driver.f_st driver.LHV = Ok LHV_eff →
    2 * driver.f_st * LHV_eff = driver.f_st * driver.LHV.
Proof.
  destruct (X8_heating_value_is_capped_at_stoichiometric
              driver.f_st driver.f_st driver.LHV) as (_ & _ & Hcont).
  destruct (X8_heating_value_is_capped_at_stoichiometric
              0 0 driver.LHV) as (Hfail & _ & _).
  destruct (X8_heating_value_is_capped_at_stoichiometric
              (2 * driver.f_st) driver.f_st driver.LHV) as (_ & Hcap & _).
  split; [|split].
  - apply Hcont. discriminate.
  - apply Hfail; [float_range|].
    split; [reflexivity|]. split; [by vm_compute | by left].
  - intros LHV_eff H. exact (Hcap LHV_eff H).
Defined.

Lemma preset_has_no_gas_radiation :
  nd_delta InterfaceStabilizedNondim * nd_mu InterfaceStabilizedNondim = 0.
Proof. apply Qc_this_inj. reflexivity. Qed.

Lemma X9_witness :
  ∃ self' T3x TS1,
    PMCNondim_run (PMC_py Newton.solve) (nd_attrs InterfaceStabilizedNondim)
      driver.cp driver.T2 driver.T3a driver.T4 driver.f_loc driver.f_st
      driver.LHV = (Ok (), self') ∧
    self' !! "T3x" = Some T3x ∧ self' !! "TS1" = Some TS1 ∧
    Qc_abs (TS1 - T3x - dec 20.0) ≤ Qc_abs driver.T2 * dec 1e-6.
Proof.
  destruct PMCNondim_run_completes as [self' Hrun].
  destruct (X9_stored_temperatures_satisfy_closures (PMC_py Newton.solve)
              InterfaceStabilizedNondim driver.cp driver.T2 driver.T3a
              driver.T4 driver.f_loc driver.f_st driver.LHV self'
              Newton_solve_contract Hrun)
    as (T3x & T3y & T3b & TS1 & TS2 & Hx & _ & _ & H1 & _ & Hc & _).
  exists self', T3x, TS1.
  split; [exact Hrun|]. split; [exact Hx|]. split; [exact H1 | exact Hc].
Defined.

Lemma X10_witness :
  ∃ self' T3b,
    PMCNondim_run (PMC_py Newton.solve) (nd_attrs InterfaceStabilizedNondim)
      driver.cp driver.T2 driver.T3a driver.T4 driver.f_loc driver.f_st
      driver.LHV = (Ok (), self') ∧
    self' !! "T3b" = Some T3b ∧
    Qc_abs (T3b - (driver.T3a + driver.f_loc / (driver.f_loc + 1)
                   * (spec_LHV_eff driver.f_loc driver.f_st driver.LHV
                      / driver.cp)))
      ≤ Qc_abs driver.T2 * dec 3e-6.
Proof.
  destruct PMCNondim_run_completes as [self' Hrun].
  destruct (X10_exit_temperature_is_inlet_plus_heat_release
              (PMC_py Newton.solve) InterfaceStabilizedNondim driver.cp
              driver.T2 driver.T3a driver.T4 driver.f_loc driver.f_st
              driver.LHV self' Newton_solve_contract
              preset_has_no_gas_radiation Hrun) as (T3b & Hb & Hbound).
  exists self', T3b. split; [exact Hrun|]. split; [exact Hb | exact Hbound].
Defined.

Lemma X11_witness :
  Forall (λ e, eval (assign unknowns
                 (zero_radiation_solution (dec 0.05)
                    (driver.T3a / driver.T2)
                    (driver.f_loc / (driver.f_loc + 1)
                     * (spec_LHV_eff driver.f_loc driver.f_st driver.LHV
                        / (driver.cp * driver.T2)))
                    (dec 20 / driver.T2) (dec 20 / driver.T2))) e = 0)
    (from_Ok [] (PMCNondim_equations (nd_attrs nd_no_radiation)
       driver.cp driver.T2 driver.T3a driver.T4 driver.f_loc driver.f_st
       driver.LHV)).
Proof.
  destruct driver_inputs_fine as (HT0 & Hcp & Hf & Hlean & _).
  destruct (PMCNondim_equations_Ok nd_no_radiation
              driver.cp driver.T2 driver.T3a driver.T4 driver.f_loc
              driver.f_st driver.LHV HT0 Hcp Hf (or_introl Hlean))
    as [_ [eqs Heqs]].
  rewrite Heqs.
  assert (1 + nd_iota nd_no_radiation ≠ 0) as Hi by discriminate.
  exact (proj2 (X11_zero_radiation_system_has_one_root nd_no_radiation
                  driver.cp driver.T2 driver.T3a driver.T4 driver.f_loc
                  driver.f_st driver.LHV eqs _ _ _ _ _ eq_refl Hi Heqs)
               eq_refl).
Defined.

Lemma X12_witness :
  ∃ iota delta mu,
    PMC_groups (with_ct Newton.solve sigma_SB) (attrs driver.myProps)
      driver.cp driver.T2 = Ok (iota, delta, mu) ∧
    fst (PMC_run (with_ct Newton.solve sigma_SB) (attrs driver.myProps)
           driver.cp driver.T2 driver.T3a driver.T4 driver.f_loc
           driver.f_st driver.LHV) =
    fst (PMCNondim_run (with_ct Newton.solve sigma_SB)
           (nd_attrs (reduced driver.myProps iota delta mu))
           driver.cp driver.T2 driver.T3a driver.T4 driver.f_loc
           driver.f_st driver.LHV).
Proof.
  destruct driver_groups_exist as (iota & delta & mu & Hgr).
  exists iota, delta, mu. split; [exact Hgr|].
  exact (proj1 (proj2 (X12_dimensional_run_is_nondimensional_run_on_its_groups
           (with_ct Newton.solve sigma_SB) driver.myProps
           driver.cp driver.T2 driver.T3a driver.T4 driver.f_loc
           driver.f_st driver.LHV iota delta mu Hgr))).
Defined.


Lemma X14_witness :
  ∃ θ b b',
    PMCNondim_theta (PMC_py Newton.solve) (nd_attrs nd_no_radiation)
      driver.cp driver.T2 driver.T3a driver.T4 driver.f_loc driver.f_st
      driver.LHV = Ok θ ∧
    θ !! 2%nat = Some b ∧
    zero_radiation_solution (dec 0.05) (driver.T3a / driver.T2)
      (driver.f_loc / (driver.f_loc + 1)
       * (spec_LHV_eff driver.f_loc driver.f_st driver.LHV
          / (driver.cp * driver.T2)))
      (dec 20 / driver.T2) (dec 20 / driver.T2) !! 2%nat = Some b' ∧
    Qc_abs (b - b') ≤ dec 3e-6.
Proof.
  destruct no_radiation_solve_returns as [θ Hθ].
  assert (0 ≤ nd_iota nd_no_radiation) as Hi by discriminate.
  destruct (X14_zero_radiation_output_is_near_closed_form
              (PMC_py Newton.solve) nd_no_radiation driver.cp driver.T2
              driver.T3a driver.T4 driver.f_loc driver.f_st driver.LHV θ
              Newton_solve_contract eq_refl Hi Hθ)
    as (x & y & b & S1 & S2 & x' & y' & b' & S1' & S2' & -> & Hz & _ & _
        & Hb & _).
  exists [x; y; b; S1; S2], b, b'. split; [exact Hθ|].
  split; [reflexivity|]. split; [|exact Hb].
  change (nd_iota nd_no_radiation) with (dec 0.05) in Hz.
  change (nd_DeltaT_PH nd_no_radiation) with (dec 20) in Hz.
  change (nd_DeltaT_RC nd_no_radiation) with (dec 20) in Hz.
  by rewrite Hz.
Defined.

Lemma X15_witness :
  length (from_Ok [] (PMCNondim_equations (nd_attrs InterfaceStabilizedNondim)
            driver.cp driver.T2 driver.T3a driver.T4 driver.f_loc
            driver.f_st driver.LHV)) = 5%nat.
Proof.
  destruct driver_inputs_fine as (HT0 & Hcp & Hf & Hlean & _).
  destruct (PMCNondim_equations_Ok InterfaceStabilizedNondim
              driver.cp driver.T2 driver.T3a driver.T4 driver.f_loc
              driver.f_st driver.LHV HT0 Hcp Hf (or_introl Hlean))
    as [_ [eqs Heqs]].
  rewrite Heqs.
  exact (proj1 (X15_system_is_square_and_closed (PMC_py Newton.solve)
                  (nd_attrs InterfaceStabilizedNondim) driver.cp driver.T2
                  driver.T3a driver.T4 driver.f_loc driver.f_st driver.LHV
                  eqs (or_introl Heqs))).
Defined.

Lemma X16_witness :
  map (eval (assign unknowns [1; 1 + 1; 1; 1 + 1; 1]))
    (from_Ok [] (PMCNondim_equations (nd_attrs InterfaceStabilizedNondim)
       driver.cp driver.T2 driver.T3a driver.T4 driver.f_loc driver.f_st
       driver.LHV)) =
  map (eval (assign unknowns [1; 1 + 1; 1; 1 + 1; 1]))
    (from_Ok [] (PMCNondim_equations (nd_attrs InterfaceStabilizedNondim)
       driver.cp driver.T2 driver.T3a (2 * driver.T4) driver.f_loc
       driver.f_st driver.LHV)).
Proof.
  destruct driver_inputs_fine as (HT0 & Hcp & Hf & Hlean & _).
  destruct (PMCNondim_equations_Ok InterfaceStabilizedNondim
              driver.cp driver.T2 driver.T3a driver.T4 driver.f_loc
              driver.f_st driver.LHV HT0 Hcp Hf (or_introl Hlean))
    as [_ [eqs Heqs]].
  destruct (PMCNondim_equations_Ok InterfaceStabilizedNondim
              driver.cp driver.T2 driver.T3a (2 * driver.T4) driver.f_loc
              driver.f_st driver.LHV HT0 Hcp Hf (or_introl Hlean))
    as [_ [eqs' Heqs']].
  rewrite Heqs, Heqs'.
  exact (X16_T4_is_irrelevant_without_gas_radiation
           InterfaceStabilizedNondim driver.cp driver.T2 driver.T3a
           driver.T4 (2 * driver.T4) driver.f_loc driver.f_st driver.LHV
           eqs eqs' preset_has_no_gas_radiation Heqs Heqs'
           (assign unknowns [1; 1 + 1; 1; 1 + 1; 1])).
Defined.
